(** * MeasurementSystem: a two-click distance annotation engine

    Shallow embedding of [src/MeasurementSystem.ts].

    Numbers.  A TypeScript [number] holding a coordinate, a length or a
    snap step is modelled as a real number ([R]): IEEE rounding, NaN and
    the infinities are abstracted away, which is the reading under which
    the specification states its geometric properties ("up to
    floating-point tolerance").  A division by zero, which JavaScript
    answers with an infinity or NaN, has no counterpart either; the
    snap steps of the code are the constants 0.5 and 0.1.  An array
    index is an integer ([Z]).

    Objects.  [THREE.Vector3] values are always cloned before they are
    stored, so they are plain values here.  Scene-graph objects carry
    the [id] that three.js gives every [Object3D], which only serves to
    tell them apart; the scene is the list of the ids of its children. *)

From Stdlib Require Import Reals Lra Lia ZArith String.
From stdpp Require Import base list.

Open Scope R_scope.

(** ** three.js [Vector3] (the methods the measurement code calls) *)

Module Vector3.

Record t : Type := mk { x : R; y : R; z : R }.

Definition clone (v : t) : t := mk (x v) (y v) (z v).

(* this.copy( v ): the coordinates of [v] overwrite those of [this] *)
Definition copy (this v : t) : t := mk (x v) (y v) (z v).

Definition add (a b : t) : t := mk (x a + x b) (y a + y b) (z a + z b).

Definition sub (a b : t) : t := mk (x a - x b) (y a - y b) (z a - z b).

Definition multiplyScalar (v : t) (s : R) : t := mk (x v * s) (y v * s) (z v * s).

(* divideScalar( scalar ) { return this.multiplyScalar( 1 / scalar ); } *)
Definition divideScalar (v : t) (s : R) : t := multiplyScalar v (1 / s).

Definition negate (v : t) : t := mk (- x v) (- y v) (- z v).

Definition length (v : t) : R := sqrt (x v * x v + y v * y v + z v * z v).

Definition distanceToSquared (a b : t) : R :=
  let dx := x a - x b in
  let dy := y a - y b in
  let dz := z a - z b in
  dx * dx + dy * dy + dz * dz.

Definition distanceTo (a b : t) : R := sqrt (distanceToSquared a b).

(* normalize() { return this.divideScalar( this.length() || 1 ); } *)
Definition normalize (v : t) : t :=
  divideScalar v (if Req_dec_T (length v) 0 then 1 else length v).

End Vector3.

Abbreviation Vector3 := Vector3.t.

(** [Math.round]: the nearest integer, a tie going towards +infinity. *)
Definition Math_round (r : R) : R := IZR (Int_part (r + / 2)).

(** ** Geometry of the measurement system *)

Definition EXTENSION_OFFSET : R := 0.002.
Definition EXTENSION_OVERSHOOT : R := 0.003.
Definition SNAP_SHIFT : R := 0.5.
Definition SNAP_CTRL : R := 0.1.

Definition snapToIncrement (start end_ : Vector3) (increment : R) : Vector3 :=
  let distance := Vector3.distanceTo start end_ in
  let snappedDistance := Math_round (distance / increment) * increment in
  if Req_dec_T snappedDistance 0 then end_
  else
    let direction := Vector3.normalize (Vector3.sub (Vector3.clone end_) start) in
    Vector3.add (Vector3.clone start) (Vector3.multiplyScalar direction snappedDistance).

(** The value of the local [snappedDistance] of [snapToIncrement]. *)
Definition snappedDistanceOf (start end_ : Vector3) (increment : R) : R :=
  Math_round (Vector3.distanceTo start end_ / increment) * increment.

(** ** Scene-graph objects *)

(** The [id] three.js gives every [Object3D] from a global counter. *)
Definition ObjId : Type := nat.

Inductive Material : Type :=
| dimensionMat
| extensionMat
| previewMat.

(** A [BufferGeometry]: its [position] attribute and, once
    [computeLineDistances] has run, its [lineDistance] attribute. *)
Record BufferGeometry : Type := mkGeometry {
  position : list Vector3;
  lineDistance : option (list R)
}.

Definition new_BufferGeometry : BufferGeometry := mkGeometry [] None.

Definition setFromPoints (g : BufferGeometry) (points : list Vector3) : BufferGeometry :=
  mkGeometry points (lineDistance g).

Record Line : Type := mkLine {
  line_id : ObjId;
  geometry : BufferGeometry;
  material : Material
}.

Fixpoint lineDistancesFrom (acc : R) (vStart : Vector3) (rest : list Vector3) : list R :=
  match rest with
  | [] => []
  | vEnd :: rest' =>
      let d := acc + Vector3.distanceTo vStart vEnd in
      d :: lineDistancesFrom d vEnd rest'
  end.

Definition computeLineDistances (l : Line) : Line :=
  let lineDistances :=
    0 :: match position (geometry l) with
         | [] => []
         | v0 :: rest => lineDistancesFrom 0 v0 rest
         end in
  mkLine (line_id l) (mkGeometry (position (geometry l)) (Some lineDistances)) (material l).

Definition with_geometry (l : Line) (g : BufferGeometry) : Line :=
  mkLine (line_id l) g (material l).

(** [group.userData] of a finished dimension. *)
Record UserData : Type := mkUserData {
  ud_startPoint : Vector3;
  ud_endPoint : Vector3;
  ud_distance : R
}.

(** A [DimensionGroup]: the group, its [userData], the main line and the
    two extension lines.  The two arrowheads and the label sprite are
    children of the group as well; they take the next three ids and are
    not described further. *)
Record DimensionGroup : Type := mkGroup {
  group_id : ObjId;
  userData : UserData;
  dimLine : Line;
  extLine1 : Line;
  extLine2 : Line
}.

(** Number of [Object3D]s one call of [createDimensionLineGroup] makes:
    the group, three lines, two arrowheads, one sprite. *)
Definition GROUP_OBJECTS : nat := 7.

Definition createDimensionLineGroup (fresh : ObjId) (a b : Vector3) : DimensionGroup :=
  let distance := Vector3.distanceTo a b in
  let data := mkUserData (Vector3.clone a) (Vector3.clone b) distance in
  let direction := Vector3.sub (Vector3.clone b) a in
  let dimGeo := setFromPoints new_BufferGeometry [a; b] in
  let dimLine := mkLine (fresh + 1)%nat dimGeo dimensionMat in
  let perpendicular :=
    Vector3.normalize (Vector3.mk (- Vector3.y direction) (Vector3.x direction) 0) in
  let extensionLength := EXTENSION_OFFSET + EXTENSION_OVERSHOOT in
  let extGeo1 := setFromPoints new_BufferGeometry
    [ Vector3.sub (Vector3.clone a)
        (Vector3.multiplyScalar (Vector3.clone perpendicular) extensionLength);
      Vector3.add (Vector3.clone a)
        (Vector3.multiplyScalar (Vector3.clone perpendicular) EXTENSION_OFFSET) ] in
  let extLine1 := mkLine (fresh + 2)%nat extGeo1 extensionMat in
  let extGeo2 := setFromPoints new_BufferGeometry
    [ Vector3.sub (Vector3.clone b)
        (Vector3.multiplyScalar (Vector3.clone perpendicular) extensionLength);
      Vector3.add (Vector3.clone b)
        (Vector3.multiplyScalar (Vector3.clone perpendicular) EXTENSION_OFFSET) ] in
  let extLine2 := mkLine (fresh + 3)%nat extGeo2 extensionMat in
  mkGroup fresh data dimLine extLine1 extLine2.

(** The value of the local [perpendicular] of [createDimensionLineGroup]. *)
Definition perpendicularOf (a b : Vector3) : Vector3 :=
  let direction := Vector3.sub (Vector3.clone b) a in
  Vector3.normalize (Vector3.mk (- Vector3.y direction) (Vector3.x direction) 0).

(** [Object3D.add] of an object that has no parent yet, and
    [Object3D.remove] (the first child that is this very object). *)
Definition Scene : Type := list ObjId.

Definition scene_add (sc : Scene) (o : ObjId) : Scene := sc ++ [o].

Fixpoint scene_remove (sc : Scene) (o : ObjId) : Scene :=
  match sc with
  | [] => []
  | c :: rest => if Nat.eqb c o then rest else c :: scene_remove rest o
  end.

(** ** The measurement system *)

(** The instance fields that the operations read or write.  [scene] is
    the child list of the [THREE.Scene] wired in by [init]; [nextId] is
    three.js's counter of [Object3D] ids.  The camera and the shared
    materials are never reassigned and are left out. *)
Record MeasurementSystem : Type := mkSystem {
  scene : Scene;
  isActive : bool;
  startPoint : option Vector3;
  previewLine : option Line;
  currentMousePos : Vector3;
  measurements : list DimensionGroup;
  nextId : ObjId
}.

(** [new MeasurementSystem()]: the field initialisers. *)
Definition new_MeasurementSystem : MeasurementSystem :=
  mkSystem [] false None None (Vector3.mk 0 0 0) [] 0%nat.

Definition init (s : MeasurementSystem) (sc : Scene) : MeasurementSystem :=
  mkSystem sc (isActive s) (startPoint s) (previewLine s) (currentMousePos s)
    (measurements s) (nextId s).

Definition activate (s : MeasurementSystem) : MeasurementSystem :=
  mkSystem (scene s) true (startPoint s) (previewLine s) (currentMousePos s)
    (measurements s) (nextId s).

(** [disposeGroup] only calls [dispose()] on geometries, materials and
    textures, which frees renderer-side buffers; it writes no field of
    the system and of no object, so it does not show in the state. *)
Definition cancelMeasurement (s : MeasurementSystem) : MeasurementSystem :=
  let sc :=
    match previewLine s with
    | Some line => scene_remove (scene s) (line_id line)
    | None => scene s
    end in
  mkSystem sc (isActive s) None None (currentMousePos s) (measurements s) (nextId s).

Definition deactivate (s : MeasurementSystem) : MeasurementSystem :=
  cancelMeasurement
    (mkSystem (scene s) false (startPoint s) (previewLine s) (currentMousePos s)
       (measurements s) (nextId s)).

(** The DOM events [handleEvent] tells apart. *)
Inductive DomEvent : Type :=
| KeyboardEvent (key : string)
| MouseEvent.

Definition handleEvent (s : MeasurementSystem) (event : DomEvent) : MeasurementSystem :=
  match event with
  | KeyboardEvent key => if String.eqb key "Escape" then cancelMeasurement s else s
  | MouseEvent => s
  end.

Definition handleMouseMove (s : MeasurementSystem) (p : Vector3) : MeasurementSystem :=
  if negb (isActive s) then s
  else
    let mouse := Vector3.copy (currentMousePos s) p in
    match previewLine s, startPoint s with
    | Some line, Some start =>
        let line' :=
          computeLineDistances
            (with_geometry line (setFromPoints (geometry line) [start; p])) in
        mkSystem (scene s) (isActive s) (startPoint s) (Some line') mouse
          (measurements s) (nextId s)
    | _, _ =>
        mkSystem (scene s) (isActive s) (startPoint s) (previewLine s) mouse
          (measurements s) (nextId s)
    end.

Definition completeMeasurement (s : MeasurementSystem) (a b : Vector3) : MeasurementSystem :=
  let dimensionGroup := createDimensionLineGroup (nextId s) a b in
  mkSystem (scene_add (scene s) (group_id dimensionGroup)) (isActive s) (startPoint s)
    (previewLine s) (currentMousePos s) (measurements s ++ [dimensionGroup])
    (nextId s + GROUP_OBJECTS)%nat.

Definition handleClick (s : MeasurementSystem) (p : Vector3) (shiftKey ctrlKey : bool)
  : MeasurementSystem :=
  if negb (isActive s) then s
  else
    match startPoint s with
    | None =>
        let geo := setFromPoints new_BufferGeometry [p; p] in
        let line := computeLineDistances (mkLine (nextId s) geo previewMat) in
        mkSystem (scene_add (scene s) (line_id line)) (isActive s) (Some (Vector3.clone p))
          (Some line) (currentMousePos s) (measurements s) (nextId s + 1)%nat
    | Some start =>
        let endPoint := Vector3.clone p in
        let endPoint :=
          if shiftKey then snapToIncrement start endPoint SNAP_SHIFT
          else if ctrlKey then snapToIncrement start endPoint SNAP_CTRL
          else endPoint in
        cancelMeasurement (completeMeasurement s start endPoint)
    end.

Definition removeMeasurement (s : MeasurementSystem) (index : Z) : MeasurementSystem :=
  if ((0 <=? index)%Z && (index <? Z.of_nat (length (measurements s)))%Z)%bool then
    match measurements s !! Z.to_nat index with
    | Some measurement =>
        mkSystem (scene_remove (scene s) (group_id measurement)) (isActive s) (startPoint s)
          (previewLine s) (currentMousePos s) (delete (Z.to_nat index) (measurements s))
          (nextId s)
    | None => s
    end
  else s.

Definition clearAllMeasurements (s : MeasurementSystem) : MeasurementSystem :=
  let sc :=
    fold_left (fun sc measurement => scene_remove sc (group_id measurement))
      (measurements s) (scene s) in
  mkSystem sc (isActive s) (startPoint s) (previewLine s) (currentMousePos s) [] (nextId s).

Definition dispose (s : MeasurementSystem) : MeasurementSystem :=
  cancelMeasurement (clearAllMeasurements s).

(** The calls a host can make on a wired system, and a run of them. *)
Inductive Call : Type :=
| CActivate
| CDeactivate
| CHandleEvent (event : DomEvent)
| CHandleMouseMove (p : Vector3)
| CHandleClick (p : Vector3) (shiftKey ctrlKey : bool)
| CCancelMeasurement
| CRemoveMeasurement (index : Z)
| CClearAllMeasurements
| CDispose.

Definition call (s : MeasurementSystem) (c : Call) : MeasurementSystem :=
  match c with
  | CActivate => activate s
  | CDeactivate => deactivate s
  | CHandleEvent event => handleEvent s event
  | CHandleMouseMove p => handleMouseMove s p
  | CHandleClick p shiftKey ctrlKey => handleClick s p shiftKey ctrlKey
  | CCancelMeasurement => cancelMeasurement s
  | CRemoveMeasurement index => removeMeasurement s index
  | CClearAllMeasurements => clearAllMeasurements s
  | CDispose => dispose s
  end.

Definition run (s : MeasurementSystem) (calls : list Call) : MeasurementSystem :=
  fold_left call calls s.

(** ** The singleton *)

(** The static side of the class: the [instance] slot and the objects
    that [new MeasurementSystem()] has allocated so far, an instance
    being referred to by its address in that store. *)
Record ClassState : Type := mkClass {
  instance : option nat;
  store : list MeasurementSystem
}.

Definition createReference (c : ClassState) : nat * ClassState :=
  match instance c with
  | Some r => (r, c)
  | None =>
      let r := length (store c) in
      (r, mkClass (Some r) (store c ++ [new_MeasurementSystem]))
  end.

(** [n] calls of [createReference] in a row: what each returned. *)
Fixpoint createReferences (n : nat) (c : ClassState) : list nat * ClassState :=
  match n with
  | O => ([], c)
  | S n' =>
      let '(r, c1) := createReference c in
      let '(rs, c2) := createReferences n' c1 in
      (r :: rs, c2)
  end.

(** ** Vocabulary of the specification *)

(** [Idle]: no start point is held.  [Pending]: one is. *)
Definition pending (s : MeasurementSystem) : bool :=
  match startPoint s with
  | Some _ => true
  | None => false
  end.

Definition idle (s : MeasurementSystem) : bool := negb (pending s).

(** A start point and a preview line are held together or not at all:
    the two tests of [handleMouseMove] for a pending measurement agree. *)
Definition preview_with_start (s : MeasurementSystem) : Prop :=
  startPoint s = None <-> previewLine s = None.

(** A system as the host has it after [createReference] and [init]. *)
Definition wired (sc : Scene) : MeasurementSystem := init new_MeasurementSystem sc.

(** Two clicks on an active system, without modifier keys. *)
Definition measure (s : MeasurementSystem) (a b : Vector3) : MeasurementSystem :=
  handleClick (handleClick s a false false) b false false.

(** A session that has registered two measurements. *)
Definition two_measurements : MeasurementSystem :=
  measure (measure (activate (wired [])) (Vector3.mk 0 0 0) (Vector3.mk 3 4 0))
    (Vector3.mk 1 0 0) (Vector3.mk 1 2 0).

(** The Euclidean distance between two points, written out. *)
Definition euclidean (a b : Vector3) : R :=
  sqrt ((Vector3.x b - Vector3.x a)² + (Vector3.y b - Vector3.y a)²
        + (Vector3.z b - Vector3.z a)²).

(** What the registry promises about an entry: the cached distance is
    the Euclidean distance of the two stored points, and not negative. *)
Definition distance_cached (g : DimensionGroup) : Prop :=
  ud_distance (userData g) =
    euclidean (ud_startPoint (userData g)) (ud_endPoint (userData g))
  /\ 0 <= ud_distance (userData g).

(** The builder stores the two points it was called with in [userData];
    an entry is built from distinct points, with extension lines that
    have a direction, when the two differ and the perpendicular between
    them has a length. *)
Definition built_apart (g : DimensionGroup) : Prop :=
  ud_startPoint (userData g) <> ud_endPoint (userData g)
  /\ Vector3.length
       (perpendicularOf (ud_startPoint (userData g)) (ud_endPoint (userData g))) <> 0.

(** "The builder is only ever invoked with start <> end", over every
    run of calls on a wired system. *)
Definition builder_never_degenerate : Prop :=
  forall (sc : Scene) (calls : list Call),
    Forall built_apart (measurements (run (wired sc) calls)).

(** "[handleMouseMove] is a no-op on the system state when the system
    is inactive or no measurement is pending." *)
Definition mouse_move_noop_unless_pending : Prop :=
  forall (s : MeasurementSystem) (p : Vector3),
    isActive s = false \/ pending s = false -> handleMouseMove s p = s.

(** ** Further code of the builder *)

(** [Vector3.dot], to speak about right angles. *)
Definition dot (a b : Vector3) : R :=
  Vector3.x a * Vector3.x b + Vector3.y a * Vector3.y b + Vector3.z a * Vector3.z b.

(** The value of the local [mid] of [createDimensionLineGroup], where
    the label sprite is anchored. *)
Definition midOf (a b : Vector3) : Vector3 :=
  Vector3.multiplyScalar (Vector3.add (Vector3.clone a) b) 0.5.

Definition ARROWHEAD_SIZE : R := 0.08.
Definition ARROWHEAD_ANGLE : R := 45.

(** [THREE.MathUtils.degToRad] and [radToDeg]. *)
Definition degToRad (degrees : R) : R := degrees * (PI / 180).
Definition radToDeg (radians : R) : R := radians * (180 / PI).

(** The local [points] of [createArrowHead]: the triangle of an
    arrowhead in its own frame, before it is placed and turned. *)
Definition arrowHeadPoints : list Vector3 :=
  let arrowSize := ARROWHEAD_SIZE in
  let angleRad := degToRad ARROWHEAD_ANGLE in
  [ Vector3.mk 0 0 0;
    Vector3.mk (arrowSize * cos angleRad) (arrowSize * sin angleRad) 0;
    Vector3.mk (arrowSize * cos angleRad) (- arrowSize * sin angleRad) 0 ].

(** [Math.atan2].  A real zero carries no sign, and the result depends
    on the sign of a zero argument ([atan2(-0, -1)] is [-PI] where
    [atan2(0, -1)] is [PI]), so the two signs come as arguments of
    their own: [yNegZero] and [xNegZero] say whether [y], respectively
    [x], is the negative zero when it is zero, and are not looked at
    otherwise.  The values are the exact ones; the code's are their
    roundings. *)
Definition Math_atan2 (yNegZero xNegZero : bool) (y x : R) : R :=
  if Rlt_dec 0 x then atan (y / x)
  else if Rlt_dec x 0 then
    if Rlt_dec 0 y then atan (y / x) + PI
    else if Rlt_dec y 0 then atan (y / x) - PI
    else if yNegZero then - PI else PI
  else if Rlt_dec 0 y then PI / 2
  else if Rlt_dec y 0 then - (PI / 2)
  else if xNegZero then (if yNegZero then - PI else PI)
  else 0.

(** [dyNegZero] and [dxNegZero]: the signs of the differences [dy] and
    [dx] when these are zero, as for [Math_atan2]. *)
Definition getLineAngle (dyNegZero dxNegZero : bool) (a b : Vector3) : R :=
  let dx := Vector3.x b - Vector3.x a in
  let dy := Vector3.y b - Vector3.y a in
  radToDeg (Math_atan2 dyNegZero dxNegZero dy dx).

(** The remainder operator [%] of JavaScript on the reals: the quotient
    is cut towards zero, so the result has the sign of the dividend. *)
Definition Math_trunc (r : R) : R :=
  if Rle_dec 0 r then IZR (Int_part r) else - IZR (Int_part (- r)).

Definition js_rem (a n : R) : R := a - n * Math_trunc (a / n).

(** What [createTextSprite] fixes of the sprite it returns besides its
    texture: where it sits, how it is turned, and its scale.  The text
    goes onto the canvas only. *)
Record Sprite : Type := mkSprite {
  sprite_position : Vector3;
  sprite_rotation_z : R;
  sprite_scale : Vector3
}.

(** Comparisons of numbers, as the truth values an [if] tests. *)
Definition Rleb (a b : R) : bool := if Rle_dec a b then true else false.
Definition Rltb (a b : R) : bool := if Rlt_dec a b then true else false.

Definition createTextSprite (text : string) (pos : Vector3) (lineAngle : R) : Sprite :=
  let position := Vector3.copy (Vector3.mk 0 0 0) pos in
  let scale := Vector3.mk 2 0.5 1 in
  let angle := js_rem lineAngle 360 in
  if (Rleb 0 angle && Rltb angle 30)%bool then
    mkSprite (Vector3.mk (Vector3.x position) (Vector3.y position + 0.15) (Vector3.z position))
      0 scale
  else if (Rleb 30 angle && Rltb angle 60)%bool then
    mkSprite (Vector3.mk (Vector3.x position) (Vector3.y position + 0.15) (Vector3.z position))
      (degToRad lineAngle) scale
  else if (Rleb 60 angle && Rltb angle 90)%bool then
    mkSprite (Vector3.mk (Vector3.x position + 0.15) (Vector3.y position) (Vector3.z position))
      0 scale
  else mkSprite position 0 scale.

(** The label of the measurement from [a] to [b], as
    [createDimensionLineGroup] asks for it. *)
Definition labelOf (dyNegZero dxNegZero : bool) (text : string) (a b : Vector3) : Sprite :=
  createTextSprite text (midOf a b) (getLineAngle dyNegZero dxNegZero a b).

(** The background box [createTextSprite] draws behind a text that is
    [textWidth] pixels wide: the locals [bgX], [bgY], [bgWidth] and
    [bgHeight], on the 256 by 64 canvas. *)
Definition TEXT_PADDING : R := 4.
Definition TEXT_SIZE : R := 16.
Definition CANVAS_WIDTH : R := 256.
Definition CANVAS_HEIGHT : R := 64.

Record Box : Type := mkBox { bgX : R; bgY : R; bgWidth : R; bgHeight : R }.

Definition textBackground (textWidth : R) : Box :=
  let textHeight := TEXT_SIZE in
  let padding := TEXT_PADDING in
  let bgWidth := textWidth + padding * 2 in
  let bgHeight := textHeight + padding in
  let bgX := (CANVAS_WIDTH - bgWidth) / 2 in
  let bgY := (CANVAS_HEIGHT - bgHeight) / 2 in
  mkBox bgX bgY bgWidth bgHeight.

(** ** Bookkeeping of the scene *)

(** The scene children the system has put there and not yet taken
    out: one group per registry entry, and the preview line. *)
Definition preview_ids (s : MeasurementSystem) : list ObjId :=
  match previewLine s with
  | Some line => [line_id line]
  | None => []
  end.

Definition owned_ids (s : MeasurementSystem) : list ObjId :=
  map group_id (measurements s) ++ preview_ids s.

(** The scene holds the children the host put there, [theirs], and
    beside them exactly what the system owns. *)
Definition scene_owned (theirs : Scene) (s : MeasurementSystem) : Prop :=
  scene s ≡ₚ theirs ++ owned_ids s.

Definition isClick (c : Call) : bool :=
  match c with
  | CHandleClick _ _ _ => true
  | _ => false
  end.

(** The clicks in a run of calls, and the click a state is still
    waiting to pair up. *)
Definition clicks (calls : list Call) : nat := length (List.filter isClick calls).

Definition open_clicks (s : MeasurementSystem) : nat := if pending s then 1%nat else 0%nat.

(** ** The host page *)

Module Vector2.

Record t : Type := mk { x : R; y : R }.

End Vector2.

(** What the handlers read of a DOM mouse event. *)
Record DomMouseEvent : Type := mkMouseEvent {
  clientX : R;
  clientY : R;
  shiftKey : bool;
  ctrlKey : bool
}.

(** The page: the [mouse] vector, filled on every move, and the
    measurement system. *)
Record Page : Type := mkPage {
  mouse : Vector2.t;
  system : MeasurementSystem
}.

Definition setMouse (innerWidth innerHeight : R) (e : DomMouseEvent) : Vector2.t :=
  Vector2.mk ((clientX e / innerWidth) * 2 - 1) (- (clientY e / innerHeight) * 2 + 1).

Section Host.

(** [raycaster.setFromCamera(mouse, camera)] followed by
    [raycaster.ray.at(10, ...)]: the world point the page takes for a
    pointer position.  The camera is set up once and never moved. *)
Variable pick : Vector2.t -> Vector3.

(** The page after set-up: a fresh mouse vector, and the system wired
    to the scene and activated. *)
Definition page_start (sc : Scene) : Page :=
  mkPage (Vector2.mk 0 0) (activate (init new_MeasurementSystem sc)).

Definition onMouseMove (innerWidth innerHeight : R) (pg : Page) (e : DomMouseEvent) : Page :=
  let mouse' := setMouse innerWidth innerHeight e in
  let p := pick mouse' in
  mkPage mouse' (handleMouseMove (system pg) p).

Definition onClick (pg : Page) (e : DomMouseEvent) : Page :=
  let p := pick (mouse pg) in
  mkPage (mouse pg) (handleClick (system pg) p (shiftKey e) (ctrlKey e)).

Definition onKeyDown (pg : Page) (key : string) : Page :=
  if String.eqb key "Escape" then mkPage (mouse pg) (cancelMeasurement (system pg)) else pg.

End Host.

(** ** Vector facts *)

Section VectorFacts.

Import Vector3.

Lemma clone_eq (v : Vector3) : clone v = v.
Proof. destruct v; reflexivity. Qed.

Lemma copy_eq (this v : Vector3) : copy this v = v.
Proof. destruct v; reflexivity. Qed.

Lemma vector_ext (a b : Vector3) :
  x a = x b -> y a = y b -> z a = z b -> a = b.
Proof. destruct a, b; simpl; intros -> -> ->; reflexivity. Qed.

Lemma distanceToSquared_nonneg (a b : Vector3) : 0 <= distanceToSquared a b.
Proof.
  unfold distanceToSquared; cbv zeta.
  pose proof (Rle_0_sqr (x a - x b)) as Hx.
  pose proof (Rle_0_sqr (y a - y b)) as Hy.
  pose proof (Rle_0_sqr (z a - z b)) as Hz.
  unfold Rsqr in Hx, Hy, Hz. lra.
Qed.

Lemma distanceTo_nonneg (a b : Vector3) : 0 <= distanceTo a b.
Proof. apply sqrt_pos. Qed.

Lemma distanceTo_self (a : Vector3) : distanceTo a a = 0.
Proof.
  unfold distanceTo, distanceToSquared; simpl.
  replace (_ + _) with 0 by ring. apply sqrt_0.
Qed.

Lemma distanceTo_zero (a b : Vector3) : distanceTo a b = 0 -> a = b.
Proof.
  intros H. apply sqrt_eq_0 in H; [|apply distanceToSquared_nonneg].
  unfold distanceToSquared in H; cbv zeta in H.
  pose proof (Rle_0_sqr (x a - x b)) as Hx.
  pose proof (Rle_0_sqr (y a - y b)) as Hy.
  pose proof (Rle_0_sqr (z a - z b)) as Hz.
  unfold Rsqr in Hx, Hy, Hz.
  assert (Hx0 : (x a - x b)² = 0) by (unfold Rsqr; lra).
  assert (Hy0 : (y a - y b)² = 0) by (unfold Rsqr; lra).
  assert (Hz0 : (z a - z b)² = 0) by (unfold Rsqr; lra).
  apply Rsqr_0_uniq in Hx0, Hy0, Hz0.
  apply vector_ext; lra.
Qed.

Lemma distanceTo_pos (a b : Vector3) : a <> b -> 0 < distanceTo a b.
Proof.
  intros Hne. destruct (distanceTo_nonneg a b) as [Hlt | Heq]; [exact Hlt|].
  exfalso. apply Hne, distanceTo_zero. symmetry; exact Heq.
Qed.

Lemma length_sub (a b : Vector3) : length (sub b a) = distanceTo a b.
Proof.
  unfold length, distanceTo, distanceToSquared; simpl. f_equal; ring.
Qed.

Lemma length_multiplyScalar (v : Vector3) (c : R) :
  length (multiplyScalar v c) = Rabs c * length v.
Proof.
  unfold length; simpl.
  replace (x v * c * (x v * c) + y v * c * (y v * c) + z v * c * (z v * c))
    with (c² * (x v * x v + y v * y v + z v * z v)) by (unfold Rsqr; ring).
  rewrite sqrt_mult; [|apply Rle_0_sqr|nra].
  rewrite sqrt_Rsqr_abs. reflexivity.
Qed.

Lemma length_normalize (v : Vector3) : length v <> 0 -> length (normalize v) = 1.
Proof.
  intros Hv. unfold normalize, divideScalar.
  destruct (Req_dec_T (length v) 0) as [H0 | _]; [contradiction|].
  rewrite length_multiplyScalar.
  assert (0 < length v) by (pose proof (sqrt_pos (x v * x v + y v * y v + z v * z v));
                            unfold length in *; lra).
  rewrite Rabs_pos_eq; [field; lra|].
  apply Rlt_le. unfold Rdiv. rewrite Rmult_1_l. apply Rinv_0_lt_compat. assumption.
Qed.

Lemma normalize_zero (v : Vector3) : length v = 0 -> normalize v = v.
Proof.
  intros Hv. unfold normalize, divideScalar, multiplyScalar.
  destruct (Req_dec_T (length v) 0) as [_ | H0]; [|contradiction].
  apply vector_ext; simpl; field.
Qed.

(** A point moved from [s] by [c] times a unit vector lies at distance
    [|c|] from [s]. *)
Lemma distanceTo_add_scaled (s u : Vector3) (c : R) :
  length u = 1 -> distanceTo s (add s (multiplyScalar u c)) = Rabs c.
Proof.
  intros Hu. rewrite <- length_sub.
  replace (sub (add s (multiplyScalar u c)) s) with (multiplyScalar u c)
    by (apply vector_ext; simpl; ring).
  rewrite length_multiplyScalar, Hu. ring.
Qed.

End VectorFacts.

(** ** Rounding facts *)

Lemma Math_round_bounds (r : R) : r - / 2 < Math_round r <= r + / 2.
Proof.
  unfold Math_round. destruct (base_Int_part (r + / 2)) as [Hle Hgt]. lra.
Qed.

Lemma Math_round_spec (r : R) (n : Z) :
  r - / 2 < IZR n <= r + / 2 -> Math_round r = IZR n.
Proof.
  intros H. unfold Math_round. f_equal. symmetry. apply Int_part_spec. lra.
Qed.

Lemma Math_round_IZR (n : Z) : Math_round (IZR n) = IZR n.
Proof. apply Math_round_spec. lra. Qed.

Lemma Math_round_integer (r : R) : exists n : Z, Math_round r = IZR n.
Proof. eexists; reflexivity. Qed.

(** The rounding of a non-negative number is zero or at least one. *)
Lemma Math_round_nonneg_cases (r : R) :
  0 <= r -> Math_round r = 0 \/ 1 <= Math_round r.
Proof.
  intros Hr. pose proof (Math_round_bounds r) as [Hlo _].
  unfold Math_round in *. set (n := Int_part (r + / 2)) in *.
  assert (Hn : (-1 < n)%Z) by (apply lt_IZR; lra).
  destruct (Z.eq_dec n 0%Z) as [Hn0 | Hne]; [left; rewrite Hn0; reflexivity|].
  right. apply IZR_le. lia.
Qed.

(** A tie goes up, on either side of zero, as [Math.round] has it. *)
Example Math_round_tie_up : Math_round 2.5 = 3 /\ Math_round (-2.5) = -2.
Proof. split; [apply (Math_round_spec _ 3) | apply (Math_round_spec _ (-2))]; lra. Qed.

Example Math_round_nearest : Math_round 2.46 = 2 /\ Math_round 0.2 = 0.
Proof. split; [apply (Math_round_spec _ 2) | apply (Math_round_spec _ 0)]; lra. Qed.

(** ** Snapping *)

Section Snapping.

Import Vector3.

Variables (start end_ : Vector3) (increment : R).

Lemma snapToIncrement_degenerate :
  snappedDistanceOf start end_ increment = 0 -> snapToIncrement start end_ increment = end_.
Proof.
  intros H. unfold snapToIncrement; cbv zeta. fold (snappedDistanceOf start end_ increment).
  destruct (Req_dec_T (snappedDistanceOf start end_ increment) 0); [reflexivity | contradiction].
Qed.

Lemma snapToIncrement_regular :
  snappedDistanceOf start end_ increment <> 0 ->
  snapToIncrement start end_ increment =
  add start
    (multiplyScalar (normalize (sub end_ start)) (snappedDistanceOf start end_ increment)).
Proof.
  intros H. unfold snapToIncrement; cbv zeta. fold (snappedDistanceOf start end_ increment).
  destruct (Req_dec_T (snappedDistanceOf start end_ increment) 0); [contradiction|].
  rewrite !clone_eq. reflexivity.
Qed.

(** With a positive step, a non-zero snapped distance is positive and
    the two points are apart. *)
Lemma snappedDistance_pos :
  0 < increment -> snappedDistanceOf start end_ increment <> 0 ->
  0 < snappedDistanceOf start end_ increment /\ start <> end_.
Proof.
  intros Hk Hs. unfold snappedDistanceOf in *.
  assert (Hq : 0 <= distanceTo start end_ / increment).
  { apply Rmult_le_pos; [apply distanceTo_nonneg|].
    apply Rlt_le, Rinv_0_lt_compat, Hk. }
  split.
  - destruct (Math_round_nonneg_cases _ Hq) as [H0 | H1].
    + rewrite H0 in Hs. lra.
    + nra.
  - intros ->. rewrite distanceTo_self in Hs.
    replace (0 / increment) with (IZR 0) in Hs by (unfold Rdiv; ring).
    rewrite Math_round_IZR in Hs. lra.
Qed.

Lemma direction_unit : start <> end_ -> length (normalize (sub end_ start)) = 1.
Proof.
  intros Hne. apply length_normalize. rewrite length_sub.
  pose proof (distanceTo_pos _ _ Hne). lra.
Qed.

Lemma snapToIncrement_distance :
  0 < increment -> snappedDistanceOf start end_ increment <> 0 ->
  distanceTo start (snapToIncrement start end_ increment) =
  snappedDistanceOf start end_ increment.
Proof.
  intros Hk Hs. destruct (snappedDistance_pos Hk Hs) as [Hpos Hne].
  rewrite (snapToIncrement_regular Hs).
  rewrite distanceTo_add_scaled by (apply direction_unit, Hne).
  apply Rabs_pos_eq. lra.
Qed.

(** Whatever the step, snapping never moves a distinct end point onto
    the start point. *)
Lemma snapToIncrement_apart : start <> end_ -> snapToIncrement start end_ increment <> start.
Proof.
  intros Hne. destruct (Req_dec_T (snappedDistanceOf start end_ increment) 0) as [H0 | Hs].
  - rewrite (snapToIncrement_degenerate H0). congruence.
  - intros Heq.
    assert (Hd : distanceTo start (snapToIncrement start end_ increment)
                 = Rabs (snappedDistanceOf start end_ increment)).
    { rewrite (snapToIncrement_regular Hs).
      apply distanceTo_add_scaled, direction_unit, Hne. }
    rewrite Heq, distanceTo_self in Hd.
    apply (Rabs_no_R0 _ Hs). symmetry. exact Hd.
Qed.

End Snapping.

(** ** The two-click state machine *)

Lemma handleClick_idle (s : MeasurementSystem) (p : Vector3) (shiftKey ctrlKey : bool) :
  isActive s = true -> startPoint s = None ->
  handleClick s p shiftKey ctrlKey =
  mkSystem (scene_add (scene s) (nextId s)) true (Some p)
    (Some (computeLineDistances
             (mkLine (nextId s) (setFromPoints new_BufferGeometry [p; p]) previewMat)))
    (currentMousePos s) (measurements s) (nextId s + 1)%nat.
Proof.
  intros Ha Hs. unfold handleClick. rewrite Ha, Hs. simpl. rewrite clone_eq. reflexivity.
Qed.

Lemma handleClick_pending (s : MeasurementSystem) (p start : Vector3) (shiftKey ctrlKey : bool) :
  isActive s = true -> startPoint s = Some start ->
  handleClick s p shiftKey ctrlKey =
  cancelMeasurement
    (completeMeasurement s start
       (if shiftKey then snapToIncrement start p SNAP_SHIFT
        else if ctrlKey then snapToIncrement start p SNAP_CTRL
        else p)).
Proof.
  intros Ha Hs. unfold handleClick. rewrite Ha, Hs. simpl. rewrite clone_eq. reflexivity.
Qed.

Lemma handleClick_inactive (s : MeasurementSystem) (p : Vector3) (shiftKey ctrlKey : bool) :
  isActive s = false -> handleClick s p shiftKey ctrlKey = s.
Proof. intros Ha. unfold handleClick. rewrite Ha. reflexivity. Qed.

Lemma measurements_cancelMeasurement (s : MeasurementSystem) :
  measurements (cancelMeasurement s) = measurements s.
Proof. reflexivity. Qed.

(** C2.  On an active system a click in [Idle] adds nothing to the
    registry and leaves the system [Pending] on the clicked point, with
    a preview line; a click in [Pending] appends exactly one measurement
    and leaves the system [Idle], start point and preview both cleared,
    so a pending point is never stacked on another. *)
Theorem handleClick_two_click_cycle
    (s : MeasurementSystem) (p : Vector3) (shiftKey ctrlKey : bool) :
  isActive s = true ->
  let s' := handleClick s p shiftKey ctrlKey in
  (idle s = true ->
     measurements s' = measurements s
     /\ pending s' = true
     /\ startPoint s' = Some p
     /\ previewLine s' <> None)
  /\ (pending s = true ->
        (exists g, measurements s' = measurements s ++ [g])
        /\ length (measurements s') = S (length (measurements s))
        /\ idle s' = true
        /\ startPoint s' = None
        /\ previewLine s' = None).
Proof.
  intros Ha s'. split.
  - intros Hidle. unfold idle, pending in Hidle.
    destruct (startPoint s) eqn:Hs; [discriminate|].
    subst s'. rewrite (handleClick_idle _ _ _ _ Ha Hs). simpl.
    repeat split; try reflexivity. discriminate.
  - intros Hp. unfold pending in Hp.
    destruct (startPoint s) as [start|] eqn:Hs; [|discriminate].
    subst s'. rewrite (handleClick_pending _ _ _ _ _ Ha Hs).
    unfold cancelMeasurement, completeMeasurement; simpl.
    repeat split; try reflexivity.
    + eexists; reflexivity.
    + rewrite length_app; simpl; lia.
Qed.

Lemma handleClick_two_click_cycle_witness :
  (measurements (handleClick (activate (wired [])) (Vector3.mk 0 0 0) false false) = []
   /\ pending (handleClick (activate (wired [])) (Vector3.mk 0 0 0) false false) = true)
  /\ (length (measurements
        (handleClick (handleClick (activate (wired [])) (Vector3.mk 0 0 0) false false)
           (Vector3.mk 3 4 0) false false)) = 1%nat
      /\ idle (handleClick (handleClick (activate (wired [])) (Vector3.mk 0 0 0) false false)
           (Vector3.mk 3 4 0) false false) = true).
Proof.
  split.
  - destruct (handleClick_two_click_cycle (activate (wired [])) (Vector3.mk 0 0 0) false false
                eq_refl) as [Hidle _].
    destruct (Hidle eq_refl) as (Hm & Hp & _). split; [exact Hm | exact Hp].
  - destruct (handleClick_two_click_cycle
                (handleClick (activate (wired [])) (Vector3.mk 0 0 0) false false)
                (Vector3.mk 3 4 0) false false eq_refl) as [_ Hpend].
    destruct (Hpend eq_refl) as (_ & Hlen & Hi & _). split; [exact Hlen | exact Hi].
Defined.

(** What every call preserves holds after a run of calls. *)
Lemma run_invariant (P : MeasurementSystem -> Prop) :
  (forall s c, P s -> P (call s c)) ->
  forall calls s, P s -> P (run s calls).
Proof.
  intros Hstep calls. induction calls as [|c calls IH]; intros s Hs; [exact Hs|].
  simpl. apply IH, Hstep, Hs.
Qed.

Lemma call_preview_with_start (s : MeasurementSystem) (c : Call) :
  preview_with_start s -> preview_with_start (call s c).
Proof.
  unfold preview_with_start. intros Hs.
  destruct c as [| |event|p|p shiftKey ctrlKey| |index| |]; simpl;
    try exact Hs; try (split; reflexivity).
  - destruct event as [key|]; simpl; [|exact Hs].
    destruct (String.eqb key "Escape"); [split; reflexivity | exact Hs].
  - unfold handleMouseMove. destruct (isActive s); simpl; [|exact Hs].
    destruct (previewLine s), (startPoint s); simpl in *; try exact Hs.
    split; discriminate.
  - unfold handleClick. destruct (isActive s); simpl; [|exact Hs].
    destruct (startPoint s); simpl; split; (reflexivity || discriminate).
  - unfold removeMeasurement.
    destruct ((0 <=? index)%Z && (index <? Z.of_nat (length (measurements s)))%Z)%bool;
      [|exact Hs].
    destruct (measurements s !! Z.to_nat index); exact Hs.
Qed.

Lemma run_preview_with_start (sc : Scene) (calls : list Call) :
  preview_with_start (run (wired sc) calls).
Proof.
  apply (run_invariant preview_with_start call_preview_with_start).
  split; reflexivity.
Qed.

(** ** The registry *)

Lemma removeMeasurement_in_range (s : MeasurementSystem) (index : Z) (g : DimensionGroup) :
  (0 <= index < Z.of_nat (length (measurements s)))%Z ->
  measurements s !! Z.to_nat index = Some g ->
  removeMeasurement s index =
  mkSystem (scene_remove (scene s) (group_id g)) (isActive s) (startPoint s) (previewLine s)
    (currentMousePos s) (delete (Z.to_nat index) (measurements s)) (nextId s).
Proof.
  intros [Hlo Hhi] Hg. unfold removeMeasurement.
  apply Z.leb_le in Hlo. apply Z.ltb_lt in Hhi. rewrite Hlo, Hhi, Hg. reflexivity.
Qed.

Lemma removeMeasurement_out_of_range (s : MeasurementSystem) (index : Z) :
  (index < 0 \/ Z.of_nat (length (measurements s)) <= index)%Z ->
  removeMeasurement s index = s.
Proof.
  intros H. unfold removeMeasurement.
  destruct (0 <=? index)%Z eqn:Hlo; [|reflexivity].
  destruct (index <? Z.of_nat (length (measurements s)))%Z eqn:Hhi; [|reflexivity].
  apply Z.leb_le in Hlo. apply Z.ltb_lt in Hhi. lia.
Qed.

(** C7.  [removeMeasurement] at a negative index or at one not below the
    length changes nothing at all; at an index within the registry it
    takes out exactly the entry at that index: the entries before it and
    the entries after it stay, in their order, and the length drops by
    one. *)
Theorem removeMeasurement_by_index (s : MeasurementSystem) (index : Z) :
  ((index < 0 \/ Z.of_nat (length (measurements s)) <= index)%Z ->
     removeMeasurement s index = s)
  /\ ((0 <= index < Z.of_nat (length (measurements s)))%Z ->
        measurements (removeMeasurement s index) =
          take (Z.to_nat index) (measurements s) ++ drop (S (Z.to_nat index)) (measurements s)
        /\ S (length (measurements (removeMeasurement s index))) = length (measurements s)).
Proof.
  split; [apply removeMeasurement_out_of_range|].
  intros Hr.
  assert (Hlt : (Z.to_nat index < length (measurements s))%nat) by lia.
  destruct (lookup_lt_is_Some_2 _ _ Hlt) as [g Hg].
  rewrite (removeMeasurement_in_range _ _ _ Hr Hg); simpl.
  split; [apply delete_take_drop|].
  rewrite length_delete by (exists g; exact Hg). lia.
Qed.

Lemma removeMeasurement_by_index_witness :
  (removeMeasurement two_measurements (-1) = two_measurements
   /\ removeMeasurement two_measurements 2 = two_measurements)
  /\ measurements (removeMeasurement two_measurements 1) =
       take 1 (measurements two_measurements) ++ drop 2 (measurements two_measurements).
Proof.
  destruct (removeMeasurement_by_index two_measurements (-1)) as [Hlow _].
  destruct (removeMeasurement_by_index two_measurements 2) as [Hhigh _].
  destruct (removeMeasurement_by_index two_measurements 1) as [_ Hin].
  split; [split|].
  - apply Hlow. left. lia.
  - apply Hhigh. right. simpl. lia.
  - apply Hin. simpl. lia.
Defined.

(** C9.  Neither [removeMeasurement] nor [clearAllMeasurements] touches
    the interaction state: [isActive], [startPoint] and [previewLine]
    are after the call what they were before it, whatever the state and
    the index, so a measurement in progress survives both. *)
Theorem registry_removal_keeps_interaction (s : MeasurementSystem) (index : Z) :
  (isActive (removeMeasurement s index) = isActive s
   /\ startPoint (removeMeasurement s index) = startPoint s
   /\ previewLine (removeMeasurement s index) = previewLine s)
  /\ (isActive (clearAllMeasurements s) = isActive s
      /\ startPoint (clearAllMeasurements s) = startPoint s
      /\ previewLine (clearAllMeasurements s) = previewLine s).
Proof.
  split; [|repeat split].
  unfold removeMeasurement.
  destruct ((0 <=? index)%Z && (index <? Z.of_nat (length (measurements s)))%Z)%bool;
    [|repeat split].
  destruct (measurements s !! Z.to_nat index); repeat split.
Qed.

(** ** The singleton *)

Lemma createReference_stored (c : ClassState) :
  instance (snd (createReference c)) = Some (fst (createReference c)).
Proof. unfold createReference. destruct (instance c) eqn:H; simpl; congruence. Qed.

Lemma createReference_again (c : ClassState) (r : nat) :
  instance c = Some r -> createReference c = (r, c).
Proof. intros H. unfold createReference. rewrite H. reflexivity. Qed.

Lemma createReferences_again (n : nat) (c : ClassState) (r : nat) :
  instance c = Some r -> createReferences n c = (repeat r n, c).
Proof.
  intros H. induction n as [|n IH]; simpl; [reflexivity|].
  rewrite (createReference_again _ _ H), IH. reflexivity.
Qed.

(** C10.  [createReference] always answers with the one stored
    instance: whatever the class state, the instance a call returns is
    the one every later call returns, and those later calls change
    nothing; on a class whose slot is still empty the call constructs a
    fresh [MeasurementSystem], stores it, and returns it. *)
Theorem createReference_singleton (c : ClassState) (n : nat) :
  createReferences n (snd (createReference c)) =
    (repeat (fst (createReference c)) n, snd (createReference c))
  /\ createReference (snd (createReference c)) = createReference c
  /\ createReference (mkClass None (store c)) =
       (length (store c), mkClass (Some (length (store c))) (store c ++ [new_MeasurementSystem]))
  /\ store (snd (createReference (mkClass None (store c)))) !! length (store c) =
       Some new_MeasurementSystem.
Proof.
  pose proof (createReference_stored c) as Hst.
  repeat split.
  - apply createReferences_again, Hst.
  - rewrite (createReference_again _ _ Hst). destruct (createReference c); reflexivity.
  - simpl. rewrite lookup_app_r by lia. rewrite Nat.sub_diag. reflexivity.
Qed.

(** ** The cached distance *)

Lemma distanceTo_euclidean (a b : Vector3) : Vector3.distanceTo a b = euclidean a b.
Proof.
  unfold Vector3.distanceTo, Vector3.distanceToSquared, euclidean, Rsqr; cbv zeta.
  f_equal. ring.
Qed.

Lemma createDimensionLineGroup_cached (fresh : ObjId) (a b : Vector3) :
  distance_cached (createDimensionLineGroup fresh a b).
Proof.
  unfold distance_cached; simpl. rewrite !clone_eq.
  split; [apply distanceTo_euclidean | apply distanceTo_nonneg].
Qed.

(** What one call can do to the registry: keep some of the entries as
    they are, or append one that the builder has just made. *)
Lemma measurements_call (s : MeasurementSystem) (c : Call) :
  measurements (call s c) `sublist_of` measurements s
  \/ exists a b, measurements (call s c) =
                   measurements s ++ [createDimensionLineGroup (nextId s) a b].
Proof.
  destruct c as [| |event|p|p shiftKey ctrlKey| |index| |]; simpl.
  - left; reflexivity.
  - left; reflexivity.
  - left. destruct event as [key|]; simpl; [|reflexivity].
    destruct (String.eqb key "Escape"); reflexivity.
  - left. unfold handleMouseMove.
    destruct (isActive s); simpl; [|reflexivity].
    destruct (previewLine s), (startPoint s); reflexivity.
  - unfold handleClick. destruct (isActive s); simpl; [|left; reflexivity].
    destruct (startPoint s) as [start|]; [|left; reflexivity].
    right. eexists _, _. reflexivity.
  - left; reflexivity.
  - left. unfold removeMeasurement.
    destruct ((0 <=? index)%Z && (index <? Z.of_nat (length (measurements s)))%Z)%bool;
      [|reflexivity].
    destruct (measurements s !! Z.to_nat index); [|reflexivity].
    simpl. apply sublist_delete.
  - left. apply sublist_nil_l.
  - left. apply sublist_nil_l.
Qed.

Lemma Forall_sublist_of {A : Type} (P : A -> Prop) (l k : list A) :
  l `sublist_of` k -> Forall P k -> Forall P l.
Proof.
  intros Hsub Hk. apply Forall_forall. intros g Hg.
  rewrite Forall_forall in Hk. apply Hk. eapply elem_of_sublist; eassumption.
Qed.

Lemma call_cached (s : MeasurementSystem) (c : Call) :
  Forall distance_cached (measurements s) ->
  Forall distance_cached (measurements (call s c)).
Proof.
  intros Hs. destruct (measurements_call s c) as [Hsub | (a & b & ->)].
  - eapply Forall_sublist_of; eassumption.
  - apply Forall_app_2; [exact Hs|].
    constructor; [apply createDimensionLineGroup_cached | constructor].
Qed.

Lemma run_cached (calls : list Call) (s : MeasurementSystem) :
  Forall distance_cached (measurements s) ->
  Forall distance_cached (measurements (run s calls)).
Proof.
  apply (run_invariant (fun s => Forall distance_cached (measurements s)) call_cached).
Qed.

(** The scenario of the specification: a click on the origin and one on
    (3, 4, 0), no modifier held, register one measurement of distance 5. *)
Example measure_3_4_5 :
  exists g,
    measurements (measure (activate (wired [])) (Vector3.mk 0 0 0) (Vector3.mk 3 4 0)) = [g]
    /\ ud_distance (userData g) = 5.
Proof.
  eexists. split; [reflexivity|]. simpl.
  unfold Vector3.distanceTo, Vector3.distanceToSquared; simpl.
  apply sqrt_lem_1; lra.
Qed.

(** C1.  The measurement the builder makes for two points caches the
    Euclidean distance between them, which is not negative, next to the
    two points themselves; this holds for every pair of points, distinct
    or not.  The cached value is never written again: a call on the
    system keeps registry entries exactly as they are, or appends one
    the builder has just made, so after any run of calls every entry
    still holds the distance of its own two points. *)
Theorem distance_cached_at_creation
    (fresh : ObjId) (a b : Vector3) (s : MeasurementSystem) (c : Call)
    (sc : Scene) (calls : list Call) :
  (ud_distance (userData (createDimensionLineGroup fresh a b)) = euclidean a b
   /\ 0 <= ud_distance (userData (createDimensionLineGroup fresh a b))
   /\ ud_startPoint (userData (createDimensionLineGroup fresh a b)) = a
   /\ ud_endPoint (userData (createDimensionLineGroup fresh a b)) = b)
  /\ (measurements (call s c) `sublist_of` measurements s
      \/ exists a' b', measurements (call s c) =
                         measurements s ++ [createDimensionLineGroup (nextId s) a' b'])
  /\ Forall distance_cached (measurements (run (wired sc) calls)).
Proof.
  split; [|split].
  - simpl. rewrite !clone_eq.
    repeat split; [apply distanceTo_euclidean | apply distanceTo_nonneg].
  - apply measurements_call.
  - apply run_cached. constructor.
Qed.

(** ** Snapping, as the specification states it *)

Lemma distanceTo_along_x (c : R) :
  0 <= c -> Vector3.distanceTo (Vector3.mk 0 0 0) (Vector3.mk c 0 0) = c.
Proof.
  intros Hc. unfold Vector3.distanceTo, Vector3.distanceToSquared; simpl.
  apply sqrt_lem_1; [nra | exact Hc | ring].
Qed.

(** round(1.23 / 0.5) = 2, hence a snapped distance of 1. *)
Lemma snappedDistanceOf_coarse_example :
  snappedDistanceOf (Vector3.mk 0 0 0) (Vector3.mk 1.23 0 0) SNAP_SHIFT = 1.
Proof.
  unfold snappedDistanceOf, SNAP_SHIFT. rewrite distanceTo_along_x by lra.
  rewrite (Math_round_spec (1.23 / 0.5) 2) by lra. lra.
Qed.

(** round(0.1 / 0.5) = 0: the click is too close to snap. *)
Lemma snappedDistanceOf_close_example :
  snappedDistanceOf (Vector3.mk 0 0 0) (Vector3.mk 0.1 0 0) SNAP_SHIFT = 0.
Proof.
  unfold snappedDistanceOf, SNAP_SHIFT. rewrite distanceTo_along_x by lra.
  rewrite (Math_round_spec (0.1 / 0.5) 0) by lra. lra.
Qed.

Lemma snapToIncrement_coarse_example :
  snapToIncrement (Vector3.mk 0 0 0) (Vector3.mk 1.23 0 0) SNAP_SHIFT = Vector3.mk 1 0 0.
Proof.
  assert (Hs : snappedDistanceOf (Vector3.mk 0 0 0) (Vector3.mk 1.23 0 0) SNAP_SHIFT <> 0)
    by (rewrite snappedDistanceOf_coarse_example; lra).
  rewrite (snapToIncrement_regular _ _ _ Hs), snappedDistanceOf_coarse_example.
  unfold Vector3.normalize. rewrite length_sub, distanceTo_along_x by lra.
  destruct (Req_dec_T 1.23 0) as [H0 | _]; [lra|].
  apply vector_ext; simpl; field; lra.
Qed.

(** C3.  For a positive step and a non-zero snapped distance
    [round(d / step) * step], [snapToIncrement] returns the point
    reached from [start] by going the snapped distance along the
    normalised direction [end - start]; that direction has length one,
    so the point lies at the snapped distance from [start].  In the
    scenario of the specification (a click on the origin, then a click
    on (1.23, 0, 0) with the coarse modifier held) the registered
    measurement ends at (1, 0, 0), at distance 1 from its start. *)
Theorem snapToIncrement_along_direction (start end_ : Vector3) (increment : R) :
  (0 < increment -> snappedDistanceOf start end_ increment <> 0 ->
     snapToIncrement start end_ increment =
       Vector3.add start
         (Vector3.multiplyScalar (Vector3.normalize (Vector3.sub end_ start))
            (snappedDistanceOf start end_ increment))
     /\ Vector3.length (Vector3.normalize (Vector3.sub end_ start)) = 1
     /\ Vector3.distanceTo start (snapToIncrement start end_ increment) =
          snappedDistanceOf start end_ increment)
  /\ (forall s : MeasurementSystem,
        isActive s = true -> idle s = true ->
        exists g,
          measurements
            (handleClick (handleClick s (Vector3.mk 0 0 0) false false)
               (Vector3.mk 1.23 0 0) true false) = measurements s ++ [g]
          /\ ud_startPoint (userData g) = Vector3.mk 0 0 0
          /\ ud_endPoint (userData g) = Vector3.mk 1 0 0
          /\ Vector3.distanceTo (ud_startPoint (userData g)) (ud_endPoint (userData g)) = 1
          /\ ud_distance (userData g) = 1).
Proof.
  split.
  - intros Hk Hs. destruct (snappedDistance_pos _ _ _ Hk Hs) as [_ Hne].
    split; [apply snapToIncrement_regular, Hs|].
    split; [apply direction_unit, Hne | apply snapToIncrement_distance; assumption].
  - intros s Ha Hidle. unfold idle, pending in Hidle.
    destruct (startPoint s) eqn:Hstart; [discriminate|].
    rewrite (handleClick_idle s _ false false Ha Hstart).
    erewrite handleClick_pending; [|reflexivity|reflexivity].
    rewrite snapToIncrement_coarse_example.
    eexists. split; [reflexivity|]. simpl.
    repeat split; apply distanceTo_along_x; lra.
Qed.

Lemma snapToIncrement_along_direction_witness :
  Vector3.distanceTo (Vector3.mk 0 0 0)
    (snapToIncrement (Vector3.mk 0 0 0) (Vector3.mk 1.23 0 0) 0.5) =
  snappedDistanceOf (Vector3.mk 0 0 0) (Vector3.mk 1.23 0 0) 0.5
  /\ exists g,
       measurements
         (handleClick (handleClick (activate (wired [])) (Vector3.mk 0 0 0) false false)
            (Vector3.mk 1.23 0 0) true false) = [] ++ [g]
       /\ ud_endPoint (userData g) = Vector3.mk 1 0 0.
Proof.
  destruct (snapToIncrement_along_direction (Vector3.mk 0 0 0) (Vector3.mk 1.23 0 0) 0.5)
    as [Hsnap Hscenario].
  split.
  - apply Hsnap.
    + lra.
    + change 0.5 with SNAP_SHIFT. rewrite snappedDistanceOf_coarse_example. lra.
  - destruct (Hscenario (activate (wired [])) eq_refl eq_refl) as (g & Hm & _ & He & _).
    exists g. split; [exact Hm | exact He].
Defined.

(** C4.  [snapToIncrement] is idempotent for a positive step: snapping
    the snapped end point again, from the same start and with the same
    step, returns that same point. *)
Theorem snapToIncrement_idempotent (s e : Vector3) (k : R) :
  0 < k -> snapToIncrement s (snapToIncrement s e k) k = snapToIncrement s e k.
Proof.
  intros Hk.
  set (sd := snappedDistanceOf s e k).
  destruct (Req_dec_T sd 0) as [H0 | Hs].
  - rewrite (snapToIncrement_degenerate _ _ _ H0).
    apply snapToIncrement_degenerate, H0.
  - destruct (snappedDistance_pos _ _ _ Hk Hs) as [Hpos Hne]. fold sd in Hpos.
    pose proof (snapToIncrement_distance _ _ _ Hk Hs) as Hd. fold sd in Hd.
    destruct (Math_round_integer (Vector3.distanceTo s e / k)) as [n Hn].
    assert (Hsd' : snappedDistanceOf s (snapToIncrement s e k) k
                   = sd).
    { unfold snappedDistanceOf at 1. rewrite Hd. unfold sd, snappedDistanceOf. rewrite Hn.
      replace (IZR n * k / k) with (IZR n) by (field; lra).
      rewrite Math_round_IZR. reflexivity. }
    assert (Hs' : snappedDistanceOf s (snapToIncrement s e k) k
                  <> 0) by (rewrite Hsd'; exact Hs).
    rewrite (snapToIncrement_regular _ _ _ Hs'), Hsd'.
    rewrite (snapToIncrement_regular _ _ _ Hs) at 2. fold sd.
    f_equal. f_equal.
    (* the direction towards the snapped point is the old direction *)
    set (u := Vector3.normalize (Vector3.sub e s)).
    assert (Hu : Vector3.length u = 1) by (apply direction_unit, Hne).
    rewrite (snapToIncrement_regular _ _ _ Hs). fold sd. fold u.
    unfold Vector3.normalize at 1.
    replace (Vector3.sub (Vector3.add s (Vector3.multiplyScalar u sd)) s)
      with (Vector3.multiplyScalar u sd) by (apply vector_ext; simpl; ring).
    rewrite length_multiplyScalar, Hu, Rmult_1_r, Rabs_pos_eq by lra.
    destruct (Req_dec_T sd 0) as [|Hsd]; [contradiction|].
    unfold Vector3.divideScalar, Vector3.multiplyScalar.
    apply vector_ext; cbn [Vector3.x Vector3.y Vector3.z]; field; exact Hsd.
Qed.

Lemma snapToIncrement_idempotent_witness :
  snapToIncrement (Vector3.mk 0 0 0)
    (snapToIncrement (Vector3.mk 0 0 0) (Vector3.mk 1.23 0 0) 0.5) 0.5 =
  snapToIncrement (Vector3.mk 0 0 0) (Vector3.mk 1.23 0 0) 0.5.
Proof.
  apply (snapToIncrement_idempotent (Vector3.mk 0 0 0) (Vector3.mk 1.23 0 0) 0.5). lra.
Defined.

(** C5.  When the end point differs from the start point and the
    rounded distance [round(d / k) * k] is zero, [snapToIncrement]
    returns the end point itself, which is not the start point. *)
Theorem snapToIncrement_degenerate_guard (s e : Vector3) (k : R) :
  e <> s -> snappedDistanceOf s e k = 0 ->
  snapToIncrement s e k = e /\ snapToIncrement s e k <> s.
Proof.
  intros Hne H0. rewrite (snapToIncrement_degenerate _ _ _ H0). split; [reflexivity | exact Hne].
Qed.

Lemma vector_x_apart (a b : Vector3) : Vector3.x a <> Vector3.x b -> a <> b.
Proof. intros H Heq. apply H. rewrite Heq. reflexivity. Qed.

Lemma snapToIncrement_degenerate_guard_witness :
  snapToIncrement (Vector3.mk 0 0 0) (Vector3.mk 0.1 0 0) SNAP_SHIFT = Vector3.mk 0.1 0 0
  /\ snapToIncrement (Vector3.mk 0 0 0) (Vector3.mk 0.1 0 0) SNAP_SHIFT <> Vector3.mk 0 0 0.
Proof.
  apply (snapToIncrement_degenerate_guard (Vector3.mk 0 0 0) (Vector3.mk 0.1 0 0) SNAP_SHIFT).
  - apply vector_x_apart; simpl; lra.
  - apply snappedDistanceOf_close_example.
Defined.

(** ** What the builder is called with *)

Lemma snappedDistanceOf_same (a : Vector3) (k : R) : snappedDistanceOf a a k = 0.
Proof.
  unfold snappedDistanceOf. rewrite distanceTo_self.
  replace (0 / k) with (IZR 0) by (unfold Rdiv; ring).
  rewrite Math_round_IZR. ring.
Qed.

(** The end point a completing click hands to the builder. *)
Lemma completing_endPoint_apart (a p : Vector3) (shiftKey ctrlKey : bool) :
  let b := if shiftKey then snapToIncrement a p SNAP_SHIFT
           else if ctrlKey then snapToIncrement a p SNAP_CTRL
           else p in
  (p <> a -> a <> b) /\ (p = a -> a = b).
Proof.
  cbv zeta. split.
  - intros Hne.
    assert (Hap : a <> p) by congruence.
    destruct shiftKey; [|destruct ctrlKey].
    + intros Heq. apply (snapToIncrement_apart a p SNAP_SHIFT Hap). congruence.
    + intros Heq. apply (snapToIncrement_apart a p SNAP_CTRL Hap). congruence.
    + exact Hap.
  - intros ->.
    destruct shiftKey; [|destruct ctrlKey];
      try (rewrite snapToIncrement_degenerate by apply snappedDistanceOf_same);
      reflexivity.
Qed.

(** The extension lines are laid out along [perpendicularOf a b]. *)
Lemma extension_lines_along_perpendicular (fresh : ObjId) (a b : Vector3) :
  position (geometry (extLine1 (createDimensionLineGroup fresh a b))) =
    [ Vector3.sub a
        (Vector3.multiplyScalar (perpendicularOf a b) (EXTENSION_OFFSET + EXTENSION_OVERSHOOT));
      Vector3.add a (Vector3.multiplyScalar (perpendicularOf a b) EXTENSION_OFFSET) ]
  /\ position (geometry (extLine2 (createDimensionLineGroup fresh a b))) =
       [ Vector3.sub b
           (Vector3.multiplyScalar (perpendicularOf a b)
              (EXTENSION_OFFSET + EXTENSION_OVERSHOOT));
         Vector3.add b (Vector3.multiplyScalar (perpendicularOf a b) EXTENSION_OFFSET) ].
Proof.
  unfold createDimensionLineGroup, perpendicularOf; cbv zeta.
  cbn [extLine1 extLine2 geometry position setFromPoints].
  rewrite !clone_eq. split; reflexivity.
Qed.

Lemma perpendicular_length (a b : Vector3) :
  Vector3.length (perpendicularOf a b) <> 0
  <-> (Vector3.x a <> Vector3.x b \/ Vector3.y a <> Vector3.y b).
Proof.
  unfold perpendicularOf; simpl.
  set (v := Vector3.mk (- (Vector3.y b - Vector3.y a)) (Vector3.x b - Vector3.x a) 0).
  assert (Hlen : Vector3.length v = 0 <-> (Vector3.x a = Vector3.x b /\ Vector3.y a = Vector3.y b)).
  { unfold Vector3.length, v; simpl.
    replace (- (Vector3.y b - Vector3.y a) * - (Vector3.y b - Vector3.y a)
             + (Vector3.x b - Vector3.x a) * (Vector3.x b - Vector3.x a) + 0 * 0)
      with ((Vector3.x b - Vector3.x a)² + (Vector3.y b - Vector3.y a)²)
      by (unfold Rsqr; ring).
    pose proof (Rle_0_sqr (Vector3.x b - Vector3.x a)) as Hx.
    pose proof (Rle_0_sqr (Vector3.y b - Vector3.y a)) as Hy.
    split.
    - intros H. apply sqrt_eq_0 in H; [|lra].
      assert (Hx0 : (Vector3.x b - Vector3.x a)² = 0) by lra.
      assert (Hy0 : (Vector3.y b - Vector3.y a)² = 0) by lra.
      apply Rsqr_0_uniq in Hx0, Hy0. lra.
    - intros [-> ->]. unfold Rsqr.
      replace (_ + _) with 0 by ring. apply sqrt_0. }
  destruct (Req_dec_T (Vector3.length v) 0) as [H0 | Hn].
  - rewrite (normalize_zero _ H0). split; [contradiction|].
    apply Hlen in H0. lra.
  - rewrite (length_normalize _ Hn). split; [|lra].
    intros _.
    destruct (Req_dec_T (Vector3.x a) (Vector3.x b)) as [Hx | Hx]; [|left; exact Hx].
    destruct (Req_dec_T (Vector3.y a) (Vector3.y b)) as [Hy | Hy]; [|right; exact Hy].
    exfalso. apply Hn, Hlen. split; assumption.
Qed.

(** Two distinct points that differ in [z] only: the perpendicular of
    the extension lines has no length. *)
Lemma perpendicular_vanishes_along_z :
  Vector3.mk 0 0 0 <> Vector3.mk 0 0 1
  /\ Vector3.length (perpendicularOf (Vector3.mk 0 0 0) (Vector3.mk 0 0 1)) = 0.
Proof.
  split.
  - intros H. apply (f_equal Vector3.z) in H. simpl in H. lra.
  - destruct (Req_dec_T
                (Vector3.length (perpendicularOf (Vector3.mk 0 0 0) (Vector3.mk 0 0 1))) 0)
      as [H0 | Hn]; [exact H0|].
    apply perpendicular_length in Hn. simpl in Hn. lra.
Qed.

(** C6, as the code has it.  A completing click calls the builder with
    the start point the first click captured and with the clicked point
    [p] itself, or, when a modifier is held, with [p] snapped from the
    start point (by 0.5 under shift, by 0.1 under ctrl alone).  The two
    points handed over differ when the completing click is not on the
    start point, and coincide when it is: nothing rejects such a click.
    The perpendicular of the extension lines has a length exactly when
    the two points differ in [x] or in [y]. *)
Theorem completing_click_builder_inputs
    (s : MeasurementSystem) (p a : Vector3) (shiftKey ctrlKey : bool) :
  isActive s = true -> startPoint s = Some a ->
  exists b,
    b = (if shiftKey then snapToIncrement a p SNAP_SHIFT
         else if ctrlKey then snapToIncrement a p SNAP_CTRL
         else p)
    /\ measurements (handleClick s p shiftKey ctrlKey) =
         measurements s ++ [createDimensionLineGroup (nextId s) a b]
    /\ ud_startPoint (userData (createDimensionLineGroup (nextId s) a b)) = a
    /\ ud_endPoint (userData (createDimensionLineGroup (nextId s) a b)) = b
    /\ (p <> a -> a <> b)
    /\ (p = a -> a = b)
    /\ position (geometry (extLine1 (createDimensionLineGroup (nextId s) a b))) =
         [ Vector3.sub a
             (Vector3.multiplyScalar (perpendicularOf a b)
                (EXTENSION_OFFSET + EXTENSION_OVERSHOOT));
           Vector3.add a (Vector3.multiplyScalar (perpendicularOf a b) EXTENSION_OFFSET) ]
    /\ (Vector3.length (perpendicularOf a b) <> 0
        <-> (Vector3.x a <> Vector3.x b \/ Vector3.y a <> Vector3.y b)).
Proof.
  intros Ha Hs. rewrite (handleClick_pending _ _ _ _ _ Ha Hs).
  eexists. split; [reflexivity|]. split; [reflexivity|].
  split; [simpl; apply clone_eq|].
  split; [simpl; apply clone_eq|].
  destruct (completing_endPoint_apart a p shiftKey ctrlKey) as [Hne Heq].
  split; [exact Hne|]. split; [exact Heq|].
  split; [apply extension_lines_along_perpendicular | apply perpendicular_length].
Qed.

Lemma completing_click_builder_inputs_witness :
  exists b,
    b = Vector3.mk 3 4 0
    /\ measurements
         (handleClick (handleClick (activate (wired [])) (Vector3.mk 0 0 0) false false)
            (Vector3.mk 3 4 0) false false) =
       [] ++ [createDimensionLineGroup 1%nat (Vector3.mk 0 0 0) b]
    /\ Vector3.mk 0 0 0 <> b.
Proof.
  destruct (completing_click_builder_inputs
              (handleClick (activate (wired [])) (Vector3.mk 0 0 0) false false)
              (Vector3.mk 3 4 0) (Vector3.mk 0 0 0) false false eq_refl eq_refl)
    as (b & Hb & Hm & _ & _ & Hne & _).
  exists b. split; [exact Hb|]. split; [exact Hm|].
  apply Hne. apply vector_x_apart; simpl; lra.
Defined.

(** Two clicks on one and the same point: the builder is called with
    [start = end] and the registry takes the measurement, so the claim
    that this never happens does not hold. *)
Lemma builder_called_with_equal_points :
  (measurements
     (run (wired [])
        [CActivate;
         CHandleClick (Vector3.mk 0 0 0) false false;
         CHandleClick (Vector3.mk 0 0 0) false false]) =
     [createDimensionLineGroup 1%nat (Vector3.mk 0 0 0) (Vector3.mk 0 0 0)]
   /\ ud_startPoint
        (userData (createDimensionLineGroup 1%nat (Vector3.mk 0 0 0) (Vector3.mk 0 0 0))) =
      ud_endPoint
        (userData (createDimensionLineGroup 1%nat (Vector3.mk 0 0 0) (Vector3.mk 0 0 0))))
  /\ ~ builder_never_degenerate.
Proof.
  split; [split; reflexivity|].
  intros H.
  specialize (H [] [CActivate;
                    CHandleClick (Vector3.mk 0 0 0) false false;
                    CHandleClick (Vector3.mk 0 0 0) false false]).
  apply Forall_inv in H. destruct H as [Hne _].
  apply Hne. reflexivity.
Qed.

(** ** Pointer moves *)

(** An active, idle system: the move is recorded in [currentMousePos],
    so the state does change. *)
Lemma mouse_move_changes_idle_state :
  (isActive (activate (wired [])) = true
   /\ pending (activate (wired [])) = false
   /\ currentMousePos (activate (wired [])) = Vector3.mk 0 0 0
   /\ currentMousePos (handleMouseMove (activate (wired [])) (Vector3.mk 1 0 0)) =
        Vector3.mk 1 0 0
   /\ handleMouseMove (activate (wired [])) (Vector3.mk 1 0 0) <> activate (wired []))
  /\ ~ mouse_move_noop_unless_pending.
Proof.
  assert (Hmoved : handleMouseMove (activate (wired [])) (Vector3.mk 1 0 0)
                   <> activate (wired [])).
  { intros H. apply (f_equal (fun s => Vector3.x (currentMousePos s))) in H.
    simpl in H. lra. }
  split; [repeat split; exact Hmoved|].
  intros H. apply Hmoved, H. right. reflexivity.
Qed.

(** C8, as the code has it.  [handleMouseMove] changes nothing on an
    inactive system.  On an active one it always records the point in
    [currentMousePos]; when a start point and a preview line are both
    held it also makes the preview segment run from the start point to
    the given point; in every case the start point, the activation
    flag, the registry and the scene stay as they were, and without a
    start point or without a preview line so does the preview. *)
Theorem handleMouseMove_effect (s : MeasurementSystem) (p : Vector3) :
  (isActive s = false -> handleMouseMove s p = s)
  /\ (isActive s = true ->
        currentMousePos (handleMouseMove s p) = p
        /\ startPoint (handleMouseMove s p) = startPoint s
        /\ isActive (handleMouseMove s p) = isActive s
        /\ measurements (handleMouseMove s p) = measurements s
        /\ scene (handleMouseMove s p) = scene s
        /\ (previewLine s = None \/ startPoint s = None ->
              previewLine (handleMouseMove s p) = previewLine s)
        /\ (forall line start,
              previewLine s = Some line -> startPoint s = Some start ->
              exists line',
                previewLine (handleMouseMove s p) = Some line'
                /\ position (geometry line') = [start; p]
                /\ line_id line' = line_id line
                /\ material line' = material line)).
Proof.
  unfold handleMouseMove. split; intros Ha; rewrite Ha; simpl; [reflexivity|].
  destruct (previewLine s) as [line|] eqn:Hl, (startPoint s) as [start|] eqn:Hs; simpl;
    rewrite ?copy_eq;
    (split; [reflexivity|]); (split; [reflexivity|]); (split; [reflexivity|]);
    (split; [reflexivity|]); (split; [reflexivity|]); split;
    try (intros [H | H]; (discriminate || reflexivity));
    try (intros line0 start0 H1 H2; discriminate).
  intros line0 start0 H1 H2. injection H1 as <-. injection H2 as <-.
  eexists. repeat split.
Qed.

Lemma handleMouseMove_effect_witness :
  handleMouseMove (wired []) (Vector3.mk 2 0 0) = wired []
  /\ currentMousePos
       (handleMouseMove (handleClick (activate (wired [])) (Vector3.mk 0 0 0) false false)
          (Vector3.mk 2 0 0)) = Vector3.mk 2 0 0
  /\ startPoint
       (handleMouseMove (handleClick (activate (wired [])) (Vector3.mk 0 0 0) false false)
          (Vector3.mk 2 0 0)) = Some (Vector3.mk 0 0 0).
Proof.
  destruct (handleMouseMove_effect (wired []) (Vector3.mk 2 0 0)) as [Hoff _].
  destruct (handleMouseMove_effect
              (handleClick (activate (wired [])) (Vector3.mk 0 0 0) false false)
              (Vector3.mk 2 0 0)) as [_ Hon].
  destruct (Hon eq_refl) as (Hmouse & Hstart & _).
  split; [apply Hoff; reflexivity|]. split; [exact Hmouse | exact Hstart].
Defined.

(** * Further properties of the code *)

(** ** Cancelling *)

Lemma scene_remove_fresh (sc : Scene) (o : ObjId) :
  o ∉ sc -> scene_remove (sc ++ [o]) o = sc.
Proof.
  induction sc as [|c sc IH]; intros Hnot; simpl.
  - rewrite Nat.eqb_refl. reflexivity.
  - apply not_elem_of_cons in Hnot as [Hne Hnot].
    destruct (Nat.eqb c o) eqn:Hc; [apply Nat.eqb_eq in Hc; congruence|].
    rewrite (IH Hnot). reflexivity.
Qed.

(** X1.  [cancelMeasurement] changes nothing on a system that holds
    neither a start point nor a preview line; in any state it leaves no
    start point and no preview behind, keeps the registry, the
    activation flag and the recorded pointer position, and a second
    call in a row changes nothing more. *)
Theorem cancelMeasurement_idle_and_idempotent (s : MeasurementSystem) :
  (startPoint s = None -> previewLine s = None -> cancelMeasurement s = s)
  /\ cancelMeasurement (cancelMeasurement s) = cancelMeasurement s
  /\ startPoint (cancelMeasurement s) = None
  /\ previewLine (cancelMeasurement s) = None
  /\ measurements (cancelMeasurement s) = measurements s
  /\ isActive (cancelMeasurement s) = isActive s
  /\ currentMousePos (cancelMeasurement s) = currentMousePos s.
Proof.
  split; [|repeat split].
  intros Hs Hp. destruct s as [sc act st pl mp ms nid]; simpl in *.
  subst. reflexivity.
Qed.

Lemma cancelMeasurement_idle_and_idempotent_witness :
  cancelMeasurement (activate (wired [])) = activate (wired []).
Proof.
  destruct (cancelMeasurement_idle_and_idempotent (activate (wired []))) as [Hidle _].
  apply Hidle; reflexivity.
Defined.

(** X2.  A first click, a pointer move and a cancellation undo each
    other: on an active, idle system whose next object id is not in
    the scene yet, the three calls leave the scene, the registry and
    the interaction state as they were; only the recorded pointer
    position and the id counter have moved on. *)
Theorem click_move_cancel_restores
    (s : MeasurementSystem) (p q : Vector3) (shiftKey ctrlKey : bool) :
  isActive s = true -> startPoint s = None -> previewLine s = None ->
  nextId s ∉ scene s ->
  cancelMeasurement (handleMouseMove (handleClick s p shiftKey ctrlKey) q) =
  mkSystem (scene s) (isActive s) (startPoint s) (previewLine s) q (measurements s)
    (nextId s + 1)%nat.
Proof.
  intros Ha Hs Hp Hfresh.
  rewrite (handleClick_idle _ _ _ _ Ha Hs).
  unfold handleMouseMove, cancelMeasurement, scene_add; simpl.
  rewrite (scene_remove_fresh _ _ Hfresh), copy_eq, Ha, Hs, Hp. reflexivity.
Qed.

Lemma click_move_cancel_restores_witness :
  cancelMeasurement
    (handleMouseMove (handleClick (activate (wired [])) (Vector3.mk 0 0 0) false false)
       (Vector3.mk 2 0 0)) =
  mkSystem [] true None None (Vector3.mk 2 0 0) [] 1%nat.
Proof.
  apply (click_move_cancel_restores (activate (wired [])) (Vector3.mk 0 0 0)
           (Vector3.mk 2 0 0) false false); try reflexivity.
  apply not_elem_of_nil.
Defined.

(** X3.  [deactivate] turns the system off and drops a measurement in
    progress while it keeps the registry; clicks and pointer moves on
    the deactivated system change nothing, and activating it again
    does not bring the dropped start point back. *)
Theorem deactivate_drops_and_ignores
    (s : MeasurementSystem) (p : Vector3) (shiftKey ctrlKey : bool) :
  isActive (deactivate s) = false
  /\ startPoint (deactivate s) = None
  /\ previewLine (deactivate s) = None
  /\ measurements (deactivate s) = measurements s
  /\ handleClick (deactivate s) p shiftKey ctrlKey = deactivate s
  /\ handleMouseMove (deactivate s) p = deactivate s
  /\ pending (handleClick (activate (deactivate s)) p shiftKey ctrlKey) = true
  /\ measurements (handleClick (activate (deactivate s)) p shiftKey ctrlKey) = measurements s.
Proof. repeat split. Qed.

(** ** Pointer moves *)

(** X4.  Pointer moves are transient.  Of two moves in a row only the
    second one shows: the state is the one the second move alone would
    have given.  And a move before a click does not change what the
    click registers, nor the start point it captures. *)
Theorem pointer_moves_transient
    (s : MeasurementSystem) (p q : Vector3) (shiftKey ctrlKey : bool) :
  handleMouseMove (handleMouseMove s p) q = handleMouseMove s q
  /\ measurements (handleClick (handleMouseMove s q) p shiftKey ctrlKey) =
       measurements (handleClick s p shiftKey ctrlKey)
  /\ startPoint (handleClick (handleMouseMove s q) p shiftKey ctrlKey) =
       startPoint (handleClick s p shiftKey ctrlKey).
Proof.
  unfold handleMouseMove, handleClick.
  destruct (isActive s) eqn:Ha; simpl; [|rewrite Ha; simpl; repeat split].
  destruct (previewLine s) as [line|] eqn:Hl, (startPoint s) as [start|] eqn:Hs; simpl;
    rewrite ?Ha, ?Hl, ?Hs; simpl; rewrite ?Ha, ?Hs; simpl; repeat split.
Qed.

(** X5.  The dashes of the preview are measured from the start point:
    after a first click on [p] the preview is the segment from [p] to
    [p] with line distances 0 and 0, and after a move to [q] while a
    measurement is pending it is the segment from the start point to
    [q] with line distances 0 and the distance between the two. *)
Theorem preview_line_distances
    (s : MeasurementSystem) (p q : Vector3) (shiftKey ctrlKey : bool) :
  isActive s = true -> startPoint s = None ->
  (exists line,
     previewLine (handleClick s p shiftKey ctrlKey) = Some line
     /\ position (geometry line) = [p; p]
     /\ lineDistance (geometry line) = Some [0; 0]
     /\ material line = previewMat)
  /\ (exists line,
        previewLine (handleMouseMove (handleClick s p shiftKey ctrlKey) q) = Some line
        /\ position (geometry line) = [p; q]
        /\ lineDistance (geometry line) = Some [0; Vector3.distanceTo p q]
        /\ material line = previewMat).
Proof.
  intros Ha Hs. rewrite (handleClick_idle _ _ _ _ Ha Hs). split.
  - eexists. split; [reflexivity|]. simpl. repeat split.
    rewrite distanceTo_self, Rplus_0_l. reflexivity.
  - unfold handleMouseMove; simpl. eexists. split; [reflexivity|]. simpl.
    repeat split. rewrite Rplus_0_l. reflexivity.
Qed.

Lemma preview_line_distances_witness :
  exists line,
    previewLine
      (handleMouseMove (handleClick (activate (wired [])) (Vector3.mk 0 0 0) false false)
         (Vector3.mk 3 4 0)) = Some line
    /\ lineDistance (geometry line) =
         Some [0; Vector3.distanceTo (Vector3.mk 0 0 0) (Vector3.mk 3 4 0)].
Proof.
  destruct (preview_line_distances (activate (wired [])) (Vector3.mk 0 0 0) (Vector3.mk 3 4 0)
              false false eq_refl eq_refl) as [_ (line & Hl & _ & Hd & _)].
  exists line. split; [exact Hl | exact Hd].
Defined.

(** ** How far snapping moves a point *)

Lemma snappedDistanceOf_zero_iff (s e : Vector3) (k : R) :
  0 < k -> (snappedDistanceOf s e k = 0 <-> Vector3.distanceTo s e < k / 2).
Proof.
  intros Hk. unfold snappedDistanceOf.
  pose proof (distanceTo_nonneg s e) as Hd.
  set (d := Vector3.distanceTo s e) in *.
  assert (Hq : d / k * k = d) by (field; lra).
  split.
  - intros H0. apply Rmult_integral in H0 as [H0 | H0]; [|lra].
    pose proof (Math_round_bounds (d / k)) as [Hlo _]. rewrite H0 in Hlo. nra.
  - intros Hlt.
    assert (Hr : d / k < / 2).
    { apply (Rmult_lt_reg_r k); [exact Hk|]. rewrite Hq. lra. }
    assert (H0 : 0 <= d / k).
    { apply Rmult_le_pos; [exact Hd | apply Rlt_le, Rinv_0_lt_compat, Hk]. }
    rewrite (Math_round_spec (d / k) 0) by lra. ring.
Qed.

Lemma snappedDistanceOf_near (s e : Vector3) (k : R) :
  0 < k -> Rabs (snappedDistanceOf s e k - Vector3.distanceTo s e) <= k / 2.
Proof.
  intros Hk. unfold snappedDistanceOf.
  set (d := Vector3.distanceTo s e).
  pose proof (Math_round_bounds (d / k)) as [Hlo Hhi].
  assert (Hq : d / k * k = d) by (field; lra).
  apply Rabs_le. split; nra.
Qed.

Lemma snapToIncrement_whole_steps (s e : Vector3) (k : R) :
  0 < k -> k / 2 <= Vector3.distanceTo s e ->
  exists n : Z,
    (1 <= n)%Z /\ Vector3.distanceTo s (snapToIncrement s e k) = IZR n * k.
Proof.
  intros Hk Hge.
  assert (Hs : snappedDistanceOf s e k <> 0).
  { intros H0. apply snappedDistanceOf_zero_iff in H0; lra. }
  rewrite (snapToIncrement_distance _ _ _ Hk Hs).
  unfold snappedDistanceOf in *.
  assert (Hq : 0 <= Vector3.distanceTo s e / k).
  { apply Rmult_le_pos; [apply distanceTo_nonneg | apply Rlt_le, Rinv_0_lt_compat, Hk]. }
  destruct (Math_round_nonneg_cases _ Hq) as [H0 | H1]; [rewrite H0 in Hs; lra|].
  exists (Int_part (Vector3.distanceTo s e / k + / 2)).
  split; [apply le_IZR; exact H1 | reflexivity].
Qed.

(** X6.  With a positive step, a click closer to the start point than
    half a step is not snapped at all, and any other click is snapped
    to a point a whole number of steps, and at least one step, away
    from the start point. *)
Theorem snapToIncrement_threshold (s e : Vector3) (k : R) :
  0 < k ->
  (Vector3.distanceTo s e < k / 2 -> snapToIncrement s e k = e)
  /\ (k / 2 <= Vector3.distanceTo s e ->
        k <= Vector3.distanceTo s (snapToIncrement s e k)
        /\ exists n : Z,
             (1 <= n)%Z /\ Vector3.distanceTo s (snapToIncrement s e k) = IZR n * k).
Proof.
  intros Hk. split.
  - intros Hlt. apply snapToIncrement_degenerate, snappedDistanceOf_zero_iff; assumption.
  - intros Hge. destruct (snapToIncrement_whole_steps s e k Hk Hge) as (n & Hn & Hd).
    split; [|exists n; split; assumption].
    rewrite Hd. apply IZR_le in Hn. nra.
Qed.

Lemma snapToIncrement_threshold_witness :
  snapToIncrement (Vector3.mk 0 0 0) (Vector3.mk 0.1 0 0) 0.5 = Vector3.mk 0.1 0 0.
Proof.
  destruct (snapToIncrement_threshold (Vector3.mk 0 0 0) (Vector3.mk 0.1 0 0) 0.5) as [Hnear _].
  - lra.
  - apply Hnear. rewrite distanceTo_along_x; lra.
Defined.

(** X7.  With a positive step, snapping moves the end point by at most
    half a step, and changes its distance from the start point by at
    most half a step. *)
Theorem snapToIncrement_moves_half_step (s e : Vector3) (k : R) :
  0 < k ->
  Vector3.distanceTo e (snapToIncrement s e k) <= k / 2
  /\ Rabs (Vector3.distanceTo s (snapToIncrement s e k) - Vector3.distanceTo s e) <= k / 2.
Proof.
  intros Hk.
  destruct (Req_dec_T (snappedDistanceOf s e k) 0) as [H0 | Hs].
  - rewrite (snapToIncrement_degenerate _ _ _ H0), distanceTo_self.
    rewrite Rminus_diag, Rabs_R0. split; lra.
  - destruct (snappedDistance_pos _ _ _ Hk Hs) as [Hpos Hne].
    pose proof (snappedDistanceOf_near s e k Hk) as Hnear.
    split; [|rewrite (snapToIncrement_distance _ _ _ Hk Hs); exact Hnear].
    rewrite (snapToIncrement_regular _ _ _ Hs).
    set (sd := snappedDistanceOf s e k) in *.
    pose proof (distanceTo_pos _ _ Hne) as Hd.
    set (u := Vector3.normalize (Vector3.sub e s)).
    assert (Hu : Vector3.length u = 1) by (apply direction_unit, Hne).
    rewrite <- length_sub.
    replace (Vector3.sub (Vector3.add s (Vector3.multiplyScalar u sd)) e)
      with (Vector3.multiplyScalar u (sd - Vector3.distanceTo s e)).
    + rewrite length_multiplyScalar, Hu, Rmult_1_r. exact Hnear.
    + unfold u, Vector3.normalize. rewrite length_sub.
      destruct (Req_dec_T (Vector3.distanceTo s e) 0) as [Hz | Hnz]; [lra|].
      unfold Vector3.divideScalar, Vector3.multiplyScalar, Vector3.sub, Vector3.add.
      apply vector_ext; cbn [Vector3.x Vector3.y Vector3.z]; field; exact Hnz.
Qed.

Lemma snapToIncrement_moves_half_step_witness :
  Vector3.distanceTo (Vector3.mk 1.23 0 0)
    (snapToIncrement (Vector3.mk 0 0 0) (Vector3.mk 1.23 0 0) 0.5) <= 0.5 / 2.
Proof.
  destruct (snapToIncrement_moves_half_step (Vector3.mk 0 0 0) (Vector3.mk 1.23 0 0) 0.5)
    as [Hmove _]; [lra | exact Hmove].
Defined.

(** X8.  A completing click with a modifier held registers the snapped
    point: the step is 0.5 when shift is held, whether or not ctrl is
    held too, and 0.1 when only ctrl is.  The distance the measurement
    caches is within half a step of the distance to the clicked point;
    a click closer than half a step to the start point is registered
    as it is, any other at a whole number of steps. *)
Theorem handleClick_with_modifier
    (s : MeasurementSystem) (p a : Vector3) (shiftKey ctrlKey : bool) :
  isActive s = true -> startPoint s = Some a -> (shiftKey || ctrlKey)%bool = true ->
  exists g,
    measurements (handleClick s p shiftKey ctrlKey) = measurements s ++ [g]
    /\ ud_startPoint (userData g) = a
    /\ ud_endPoint (userData g) =
         snapToIncrement a p (if shiftKey then SNAP_SHIFT else SNAP_CTRL)
    /\ Rabs (ud_distance (userData g) - Vector3.distanceTo a p)
         <= (if shiftKey then SNAP_SHIFT else SNAP_CTRL) / 2
    /\ (Vector3.distanceTo a p < (if shiftKey then SNAP_SHIFT else SNAP_CTRL) / 2 ->
          ud_endPoint (userData g) = p)
    /\ ((if shiftKey then SNAP_SHIFT else SNAP_CTRL) / 2 <= Vector3.distanceTo a p ->
          exists n : Z,
            (1 <= n)%Z
            /\ ud_distance (userData g) = IZR n * (if shiftKey then SNAP_SHIFT else SNAP_CTRL)).
Proof.
  intros Ha Hs Hmod. rewrite (handleClick_pending _ _ _ _ _ Ha Hs).
  set (k := if shiftKey then SNAP_SHIFT else SNAP_CTRL).
  assert (Hk : 0 < k) by (unfold k, SNAP_SHIFT, SNAP_CTRL; destruct shiftKey; lra).
  assert (Hend : (if shiftKey then snapToIncrement a p SNAP_SHIFT
                  else if ctrlKey then snapToIncrement a p SNAP_CTRL else p)
                 = snapToIncrement a p k).
  { unfold k. destruct shiftKey; [reflexivity|].
    destruct ctrlKey; [reflexivity | discriminate]. }
  rewrite Hend. eexists. split; [reflexivity|]. simpl. rewrite !clone_eq.
  split; [reflexivity|]. split; [reflexivity|]. split; [|split].
  - destruct (Req_dec_T (snappedDistanceOf a p k) 0) as [H0 | Hnz].
    + rewrite (snapToIncrement_degenerate _ _ _ H0), Rminus_diag, Rabs_R0. lra.
    + rewrite (snapToIncrement_distance _ _ _ Hk Hnz). apply snappedDistanceOf_near, Hk.
  - intros Hlt. apply snapToIncrement_degenerate, snappedDistanceOf_zero_iff; assumption.
  - intros Hge. apply snapToIncrement_whole_steps; assumption.
Qed.

Lemma handleClick_with_modifier_witness :
  exists g,
    measurements
      (handleClick (handleClick (activate (wired [])) (Vector3.mk 0 0 0) false false)
         (Vector3.mk 1.23 0 0) true true) = [] ++ [g]
    /\ ud_endPoint (userData g) =
         snapToIncrement (Vector3.mk 0 0 0) (Vector3.mk 1.23 0 0) SNAP_SHIFT.
Proof.
  destruct (handleClick_with_modifier
              (handleClick (activate (wired [])) (Vector3.mk 0 0 0) false false)
              (Vector3.mk 1.23 0 0) (Vector3.mk 0 0 0) true true eq_refl eq_refl eq_refl)
    as (g & Hm & _ & He & _).
  exists g. split; [exact Hm | exact He].
Defined.

(** ** Bookkeeping of the scene *)

Lemma scene_remove_elem (sc : Scene) (o : ObjId) :
  o ∈ sc -> sc ≡ₚ o :: scene_remove sc o.
Proof.
  induction sc as [|c sc IH]; intros Hin; [inversion Hin|]. simpl.
  destruct (Nat.eqb c o) eqn:Hc.
  - apply Nat.eqb_eq in Hc. subst. reflexivity.
  - apply elem_of_cons in Hin as [Heq | Hin].
    + subst. rewrite Nat.eqb_refl in Hc. discriminate.
    + rewrite (IH Hin) at 1. apply Permutation_swap.
Qed.

Lemma scene_remove_Permutation (sc rest : Scene) (o : ObjId) :
  sc ≡ₚ o :: rest -> scene_remove sc o ≡ₚ rest.
Proof.
  intros Hp. apply (Permutation_cons_inv (a := o)).
  rewrite <- scene_remove_elem; [exact Hp|].
  rewrite Hp. apply list_elem_of_here.
Qed.

Lemma fold_scene_remove (gs : list DimensionGroup) (sc rest : Scene) :
  sc ≡ₚ map group_id gs ++ rest ->
  fold_left (fun sc measurement => scene_remove sc (group_id measurement)) gs sc ≡ₚ rest.
Proof.
  revert sc. induction gs as [|g gs IH]; intros sc Hp; simpl; [exact Hp|].
  apply IH, scene_remove_Permutation. exact Hp.
Qed.

Lemma cancelMeasurement_owned (theirs : Scene) (s : MeasurementSystem) :
  scene_owned theirs s -> scene_owned theirs (cancelMeasurement s).
Proof.
  unfold scene_owned, owned_ids, preview_ids, cancelMeasurement; simpl.
  destruct (previewLine s) as [line|]; intros Hp.
  - rewrite app_nil_r. apply scene_remove_Permutation.
    rewrite Hp, app_assoc. symmetry. apply Permutation_cons_append.
  - exact Hp.
Qed.

Lemma completeMeasurement_owned (theirs : Scene) (s : MeasurementSystem) (a b : Vector3) :
  scene_owned theirs s -> scene_owned theirs (completeMeasurement s a b).
Proof.
  unfold scene_owned, owned_ids, preview_ids, completeMeasurement, scene_add; simpl.
  intros Hp. rewrite Hp, map_app; simpl.
  rewrite <- !app_assoc. apply Permutation_app_head, Permutation_app_head.
  apply Permutation_app_comm.
Qed.

Lemma clearAllMeasurements_owned (theirs : Scene) (s : MeasurementSystem) :
  scene_owned theirs s -> scene_owned theirs (clearAllMeasurements s).
Proof.
  unfold scene_owned, owned_ids, preview_ids, clearAllMeasurements; simpl.
  intros Hp. apply fold_scene_remove.
  rewrite Hp, !app_assoc. apply Permutation_app_tail, Permutation_app_comm.
Qed.

Lemma call_owned (theirs : Scene) (s : MeasurementSystem) (c : Call) :
  preview_with_start s /\ scene_owned theirs s ->
  preview_with_start (call s c) /\ scene_owned theirs (call s c).
Proof.
  intros [Hps Ho]. split; [apply call_preview_with_start, Hps|].
  destruct c as [| |event|p|p shiftKey ctrlKey| |index| |]; simpl.
  - exact Ho.
  - apply cancelMeasurement_owned. exact Ho.
  - destruct event as [key|]; simpl; [|exact Ho].
    destruct (String.eqb key "Escape"); [apply cancelMeasurement_owned|]; exact Ho.
  - unfold handleMouseMove. destruct (isActive s); simpl; [|exact Ho].
    unfold scene_owned, owned_ids, preview_ids in *.
    destruct (previewLine s) as [line|], (startPoint s); simpl in *; exact Ho.
  - unfold handleClick. destruct (isActive s); simpl; [|exact Ho].
    destruct (startPoint s) as [start|] eqn:Hs.
    + apply cancelMeasurement_owned, completeMeasurement_owned, Ho.
    + assert (Hp : previewLine s = None) by (apply Hps; exact Hs).
      unfold scene_owned, owned_ids, preview_ids, scene_add in *; simpl.
      rewrite Hp in Ho. rewrite app_nil_r in Ho. rewrite Ho, app_assoc. reflexivity.
  - apply cancelMeasurement_owned. exact Ho.
  - unfold removeMeasurement.
    destruct ((0 <=? index)%Z && (index <? Z.of_nat (length (measurements s)))%Z)%bool;
      [|exact Ho].
    destruct (measurements s !! Z.to_nat index) as [g|] eqn:Hg; [|exact Ho].
    pose proof (Permutation_map group_id (delete_Permutation _ _ _ Hg)) as Hm.
    unfold scene_owned, owned_ids, preview_ids in *; simpl in *.
    apply scene_remove_Permutation.
    etransitivity; [exact Ho|]. rewrite Hm. simpl.
    symmetry. apply Permutation_middle.
  - apply clearAllMeasurements_owned. exact Ho.
  - apply cancelMeasurement_owned, clearAllMeasurements_owned, Ho.
Qed.

Lemma run_owned (sc : Scene) (calls : list Call) :
  preview_with_start (run (wired sc) calls) /\ scene_owned sc (run (wired sc) calls).
Proof.
  apply (run_invariant (fun s => preview_with_start s /\ scene_owned sc s)
           (call_owned sc)).
  split; [split; reflexivity|].
  unfold scene_owned, owned_ids, preview_ids; simpl. rewrite app_nil_r. reflexivity.
Qed.

(** X9.  Nothing leaks into the scene and nothing of the host is taken
    out of it: after any run of calls on a wired system the scene
    holds, up to order, the children the host put there, one group
    for every registry entry, and the preview line if there is one. *)
Theorem scene_holds_what_is_owned (sc : Scene) (calls : list Call) :
  scene (run (wired sc) calls) ≡ₚ
    sc ++ map group_id (measurements (run (wired sc) calls))
       ++ preview_ids (run (wired sc) calls).
Proof. apply run_owned. Qed.

(** X10.  [dispose] gives the scene back: after any run of calls,
    [dispose] leaves exactly the children of the host in the scene (up
    to order), an empty registry and no measurement in progress.  It
    does not deactivate the system: on a system that was active, a
    click after [dispose] starts a new measurement. *)
Theorem dispose_returns_scene (sc : Scene) (calls : list Call) (p : Vector3) :
  scene (dispose (run (wired sc) calls)) ≡ₚ sc
  /\ measurements (dispose (run (wired sc) calls)) = []
  /\ startPoint (dispose (run (wired sc) calls)) = None
  /\ previewLine (dispose (run (wired sc) calls)) = None
  /\ isActive (dispose (run (wired sc) calls)) = isActive (run (wired sc) calls)
  /\ dispose (dispose (run (wired sc) calls)) = dispose (run (wired sc) calls)
  /\ pending (handleClick (dispose (activate (run (wired sc) calls))) p false false) = true.
Proof.
  destruct (run_owned sc calls) as [_ Ho].
  apply clearAllMeasurements_owned, cancelMeasurement_owned in Ho.
  unfold scene_owned, owned_ids, preview_ids in Ho; simpl in Ho.
  rewrite app_nil_r in Ho.
  repeat split. exact Ho.
Qed.

(** ** The registry over a run *)

Lemma delete_middle_end {A : Type} (l : list A) (x : A) :
  delete (length l) (l ++ [x]) = l.
Proof. induction l as [|y l IH]; simpl; [reflexivity | rewrite IH; reflexivity]. Qed.

(** X11.  Removing the entry a completing click has just appended
    gives the registry back as it was before the click. *)
Theorem remove_last_restores_registry
    (s : MeasurementSystem) (p a : Vector3) (shiftKey ctrlKey : bool) :
  isActive s = true -> startPoint s = Some a ->
  measurements
    (removeMeasurement (handleClick s p shiftKey ctrlKey)
       (Z.of_nat (length (measurements s)))) = measurements s.
Proof.
  intros Ha Hs. rewrite (handleClick_pending _ _ _ _ _ Ha Hs).
  set (s' := cancelMeasurement (completeMeasurement s a _)).
  assert (Hm : exists g, measurements s' = measurements s ++ [g])
    by (eexists; reflexivity).
  destruct Hm as [g Hm]. clearbody s'.
  assert (Hg : measurements s' !! Z.to_nat (Z.of_nat (length (measurements s))) = Some g).
  { rewrite Hm, Nat2Z.id, lookup_app_r by lia. rewrite Nat.sub_diag. reflexivity. }
  rewrite (removeMeasurement_in_range s' _ g); [|rewrite Hm, length_app; simpl; lia|exact Hg].
  simpl. rewrite Hm, Nat2Z.id. apply delete_middle_end.
Qed.

Lemma remove_last_restores_registry_witness :
  measurements
    (removeMeasurement
       (handleClick (handleClick (activate (wired [])) (Vector3.mk 0 0 0) false false)
          (Vector3.mk 3 4 0) false false) 0) = [].
Proof.
  apply (remove_last_restores_registry
           (handleClick (activate (wired [])) (Vector3.mk 0 0 0) false false)
           (Vector3.mk 3 4 0) (Vector3.mk 0 0 0) false false); reflexivity.
Defined.

Lemma call_clicks (s : MeasurementSystem) (c : Call) :
  (2 * length (measurements (call s c)) + open_clicks (call s c)
   <= 2 * length (measurements s) + open_clicks s + (if isClick c then 1 else 0))%nat.
Proof.
  unfold open_clicks, pending.
  destruct c as [| |event|p|p shiftKey ctrlKey| |index| |]; simpl.
  - lia.
  - destruct (startPoint s); lia.
  - destruct event as [key|]; simpl; [|lia].
    destruct (String.eqb key "Escape"); simpl; destruct (startPoint s); lia.
  - unfold handleMouseMove. destruct (isActive s); simpl; [|lia].
    destruct (previewLine s), (startPoint s); simpl; lia.
  - unfold handleClick. destruct (isActive s); simpl; [|lia].
    destruct (startPoint s); simpl; [rewrite length_app; simpl|]; lia.
  - destruct (startPoint s); lia.
  - unfold removeMeasurement.
    destruct ((0 <=? index)%Z && (index <? Z.of_nat (length (measurements s)))%Z)%bool;
      [|lia].
    destruct (measurements s !! Z.to_nat index) as [g|] eqn:Hg; [|lia]. simpl.
    rewrite length_delete by (exists g; exact Hg). destruct (startPoint s); lia.
  - destruct (startPoint s); lia.
  - destruct (startPoint s); lia.
Qed.

Lemma run_clicks (calls : list Call) (s : MeasurementSystem) :
  (2 * length (measurements (run s calls)) + open_clicks (run s calls)
   <= 2 * length (measurements s) + open_clicks s + clicks calls)%nat.
Proof.
  revert s. induction calls as [|c calls IH]; intros s; [unfold clicks; simpl; lia|].
  simpl. specialize (IH (call s c)). pose proof (call_clicks s c) as Hc.
  unfold clicks in *. simpl. destruct (isClick c); simpl; lia.
Qed.

(** X12.  Every measurement takes two clicks: after any run of calls
    on a wired system, twice the number of registry entries, plus one
    if a measurement is in progress, is at most the number of clicks
    in the run. *)
Theorem two_clicks_per_measurement (sc : Scene) (calls : list Call) :
  (2 * length (measurements (run (wired sc) calls)) + open_clicks (run (wired sc) calls)
   <= clicks calls)%nat.
Proof. pose proof (run_clicks calls (wired sc)) as H. simpl in H. exact H. Qed.

(** X13.  Only [activate] and [deactivate] touch the activation flag:
    every other call, [dispose] and [cancelMeasurement] included,
    leaves it as it was. *)
Theorem isActive_only_by_activation (s : MeasurementSystem) (c : Call) :
  c <> CActivate -> c <> CDeactivate -> isActive (call s c) = isActive s.
Proof.
  intros Hact Hdeact.
  destruct c as [| |event|p|p shiftKey ctrlKey| |index| |]; simpl;
    try congruence; try reflexivity.
  - destruct event as [key|]; simpl; [|reflexivity].
    destruct (String.eqb key "Escape"); reflexivity.
  - unfold handleMouseMove. destruct (isActive s) eqn:Ha; simpl; [|exact Ha].
    destruct (previewLine s), (startPoint s); simpl; exact Ha || reflexivity.
  - unfold handleClick. destruct (isActive s) eqn:Ha; simpl; [|exact Ha].
    destruct (startPoint s); simpl; exact Ha || reflexivity.
  - unfold removeMeasurement.
    destruct ((0 <=? index)%Z && (index <? Z.of_nat (length (measurements s)))%Z)%bool;
      [|reflexivity].
    destruct (measurements s !! Z.to_nat index); reflexivity.
Qed.

Lemma isActive_only_by_activation_witness :
  isActive (call (activate (wired [])) CDispose) = true.
Proof.
  apply (isActive_only_by_activation (activate (wired [])) CDispose); discriminate.
Defined.

(** ** Geometry of a dimension *)

Lemma distanceTo_sym (a b : Vector3) : Vector3.distanceTo a b = Vector3.distanceTo b a.
Proof.
  unfold Vector3.distanceTo, Vector3.distanceToSquared; cbv zeta. f_equal. ring.
Qed.

Lemma perpendicularOf_unit (a b : Vector3) :
  Vector3.x a <> Vector3.x b \/ Vector3.y a <> Vector3.y b ->
  Vector3.length (perpendicularOf a b) = 1.
Proof.
  intros Hxy. apply perpendicular_length in Hxy.
  unfold perpendicularOf in *; cbv zeta in *.
  set (v := Vector3.mk _ _ 0) in *.
  destruct (Req_dec_T (Vector3.length v) 0) as [H0 | Hn].
  - rewrite (normalize_zero _ H0) in Hxy. contradiction.
  - apply length_normalize, Hn.
Qed.

Lemma perpendicularOf_none (a b : Vector3) :
  Vector3.x a = Vector3.x b -> Vector3.y a = Vector3.y b ->
  perpendicularOf a b = Vector3.mk 0 0 0.
Proof.
  intros Hx Hy. unfold perpendicularOf; simpl. rewrite Hx, Hy.
  replace (Vector3.mk (- (Vector3.y b - Vector3.y b)) (Vector3.x b - Vector3.x b) 0)
    with (Vector3.mk 0 0 0) by (apply vector_ext; simpl; ring).
  apply normalize_zero. unfold Vector3.length; simpl.
  replace (0 * 0 + 0 * 0 + 0 * 0) with 0 by ring. apply sqrt_0.
Qed.

Lemma perpendicularOf_across (a b : Vector3) :
  dot (perpendicularOf a b) (Vector3.sub b a) = 0.
Proof.
  unfold perpendicularOf, Vector3.normalize, Vector3.divideScalar, dot; simpl. ring.
Qed.

(** X14.  The extension lines of a dimension.  Each is a segment at a
    right angle to the main line, and the one at [b] is the one at [a]
    moved by [b - a].  When the two points differ in [x] or in [y] the
    segment is 0.007 long and runs through its end of the main line,
    0.005 on one side of it and 0.002 on the other; when they do not,
    it collapses to that point. *)
Theorem extension_lines_geometry (fresh : ObjId) (a b : Vector3) :
  exists p1 q1 p2 q2 : Vector3,
    position (geometry (extLine1 (createDimensionLineGroup fresh a b))) = [p1; q1]
    /\ position (geometry (extLine2 (createDimensionLineGroup fresh a b))) = [p2; q2]
    /\ dot (Vector3.sub q1 p1) (Vector3.sub b a) = 0
    /\ p2 = Vector3.add p1 (Vector3.sub b a)
    /\ q2 = Vector3.add q1 (Vector3.sub b a)
    /\ (Vector3.x a <> Vector3.x b \/ Vector3.y a <> Vector3.y b ->
          Vector3.distanceTo p1 q1 = 0.007
          /\ Vector3.distanceTo p1 a = 0.005
          /\ Vector3.distanceTo a q1 = 0.002)
    /\ (Vector3.x a = Vector3.x b -> Vector3.y a = Vector3.y b -> p1 = a /\ q1 = a).
Proof.
  destruct (extension_lines_along_perpendicular fresh a b) as [H1 H2].
  pose proof (perpendicularOf_across a b) as Hdot.
  set (u := perpendicularOf a b) in *.
  eexists _, _, _, _. split; [exact H1|]. split; [exact H2|].
  unfold EXTENSION_OFFSET, EXTENSION_OVERSHOOT.
  split; [|split; [|split; [|split]]].
  - unfold dot in *; simpl in *. nra.
  - apply vector_ext; simpl; ring.
  - apply vector_ext; simpl; ring.
  - intros Hxy. pose proof (perpendicularOf_unit a b Hxy) as Hu. fold u in Hu.
    split; [|split].
    + replace (Vector3.add a (Vector3.multiplyScalar u 0.002))
        with (Vector3.add (Vector3.sub a (Vector3.multiplyScalar u (0.002 + 0.003)))
                (Vector3.multiplyScalar u 0.007))
        by (apply vector_ext; simpl; lra).
      rewrite (distanceTo_add_scaled _ _ _ Hu). apply Rabs_pos_eq. lra.
    + rewrite distanceTo_sym.
      replace (Vector3.sub a (Vector3.multiplyScalar u (0.002 + 0.003)))
        with (Vector3.add a (Vector3.multiplyScalar u (- 0.005)))
        by (apply vector_ext; simpl; lra).
      rewrite (distanceTo_add_scaled _ _ _ Hu), Rabs_left; lra.
    + rewrite (distanceTo_add_scaled _ _ _ Hu). apply Rabs_pos_eq. lra.
  - intros Hx Hy. unfold u. rewrite (perpendicularOf_none a b Hx Hy).
    split; apply vector_ext; simpl; ring.
Qed.

Lemma extension_lines_geometry_witness :
  exists p1 q1 : Vector3,
    position
      (geometry (extLine1 (createDimensionLineGroup 0%nat (Vector3.mk 0 0 0) (Vector3.mk 3 4 0))))
      = [p1; q1]
    /\ Vector3.distanceTo p1 q1 = 0.007.
Proof.
  destruct (extension_lines_geometry 0%nat (Vector3.mk 0 0 0) (Vector3.mk 3 4 0))
    as (p1 & q1 & _ & _ & H1 & _ & _ & _ & _ & Hlen & _).
  exists p1, q1. split; [exact H1|].
  apply Hlen. left. simpl. lra.
Defined.

(** X15.  The label is anchored half way: the anchor lies on the main
    line, at half the measured distance from either end. *)
Theorem label_anchor_half_way (a b : Vector3) :
  midOf a b = Vector3.add a (Vector3.multiplyScalar (Vector3.sub b a) 0.5)
  /\ Vector3.distanceTo a (midOf a b) = Vector3.distanceTo a b / 2
  /\ Vector3.distanceTo (midOf a b) b = Vector3.distanceTo a b / 2.
Proof.
  assert (Hhalf : forall u v : Vector3,
             Vector3.length (Vector3.multiplyScalar (Vector3.sub v u) 0.5)
             = Vector3.distanceTo u v / 2).
  { intros u v. rewrite length_multiplyScalar, length_sub, Rabs_pos_eq; lra. }
  split; [apply vector_ext; simpl; lra|]. split.
  - rewrite <- length_sub, <- Hhalf. f_equal. apply vector_ext; simpl; lra.
  - rewrite <- length_sub, <- Hhalf. f_equal. apply vector_ext; simpl; lra.
Qed.

(** ** Arrowheads and the label *)

Lemma degToRad_45 : degToRad ARROWHEAD_ANGLE = PI / 4.
Proof. unfold degToRad, ARROWHEAD_ANGLE. lra. Qed.

(** X16.  The arrowhead triangle has its apex at the origin of its own
    frame and is mirrored in the x axis; its two sides from the apex
    are [ARROWHEAD_SIZE] long each and at a right angle to each other
    (45 degrees to either side of the axis). *)
Theorem arrowHead_shape :
  exists u v : Vector3,
    arrowHeadPoints = [Vector3.mk 0 0 0; u; v]
    /\ Vector3.x v = Vector3.x u
    /\ Vector3.y v = - Vector3.y u
    /\ Vector3.z u = 0 /\ Vector3.z v = 0
    /\ Vector3.length u = ARROWHEAD_SIZE
    /\ Vector3.length v = ARROWHEAD_SIZE
    /\ dot u v = 0.
Proof.
  unfold arrowHeadPoints; cbv zeta. rewrite degToRad_45.
  eexists _, _. split; [reflexivity|]. simpl.
  pose proof (sin2_cos2 (PI / 4)) as Hsc. unfold Rsqr in Hsc.
  assert (Hsize : 0 <= ARROWHEAD_SIZE) by (unfold ARROWHEAD_SIZE; lra).
  repeat split; try ring.
  - unfold Vector3.length; simpl. apply sqrt_lem_1; [nra | exact Hsize | nra].
  - unfold Vector3.length; simpl. apply sqrt_lem_1; [nra | exact Hsize | nra].
  - unfold dot; simpl. rewrite cos_PI4, sin_PI4. ring.
Qed.

Lemma radToDeg_PI : PI * (180 / PI) = 180.
Proof. field. apply PI_neq0. Qed.

Lemma atan_nonneg (r : R) : 0 <= r -> 0 <= atan r.
Proof.
  intros [Hlt | <-]; [|rewrite atan_0; lra].
  apply Rlt_le. rewrite <- atan_0. apply atan_increasing, Hlt.
Qed.

Lemma atan_neg (r : R) : r < 0 -> atan r < 0.
Proof. intros Hlt. rewrite <- atan_0. apply atan_increasing, Hlt. Qed.

Lemma atan_pos (r : R) : 0 < r -> 0 < atan r.
Proof. intros Hlt. rewrite <- atan_0. apply atan_increasing, Hlt. Qed.

Lemma quotient_sign (dy dx : R) :
  dx <> 0 ->
  (0 < dy * dx -> 0 < dy / dx) /\ (dy * dx < 0 -> dy / dx < 0) /\ (dy = 0 -> dy / dx = 0).
Proof.
  intros Hdx.
  assert (Hq : dy / dx * (dx * dx) = dy * dx) by (field; exact Hdx).
  assert (Hsq : 0 < dx * dx) by nra.
  repeat split; intros H; [nra | nra | rewrite H; unfold Rdiv; ring].
Qed.

Lemma atan_le_PI4 (r : R) : r <= 1 -> atan r <= PI / 4.
Proof.
  intros [Hlt | ->]; [|rewrite atan_1; lra].
  apply Rlt_le. rewrite <- atan_1. apply atan_increasing, Hlt.
Qed.

(** The angle [Math.atan2] gives, by the position of [(dx, dy)]. *)
Lemma Math_atan2_range (yn xn : bool) (dy dx : R) :
  (0 < dx -> 0 <= dy -> 0 <= Math_atan2 yn xn dy dx < PI / 2)
  /\ (0 < dx -> dy <= dx -> Math_atan2 yn xn dy dx <= PI / 4)
  /\ (0 < dx -> dy < 0 -> - (PI / 2) < Math_atan2 yn xn dy dx < 0)
  /\ (dx <= 0 -> dy < 0 -> - PI < Math_atan2 yn xn dy dx <= - (PI / 2))
  /\ (dx <= 0 -> 0 < dy -> PI / 2 <= Math_atan2 yn xn dy dx < PI)
  /\ (dx = 0 -> 0 < dy -> Math_atan2 yn xn dy dx = PI / 2)
  /\ (dx = 0 -> dy < 0 -> Math_atan2 yn xn dy dx = - (PI / 2))
  /\ (0 < dx -> dy = 0 -> Math_atan2 yn xn dy dx = 0)
  /\ (dx < 0 -> dy = 0 -> Math_atan2 yn xn dy dx = PI \/ Math_atan2 yn xn dy dx = - PI)
  /\ (dx = 0 -> dy = 0 ->
        Math_atan2 yn xn dy dx = 0 \/ Math_atan2 yn xn dy dx = PI
        \/ Math_atan2 yn xn dy dx = - PI).
Proof.
  pose proof PI_RGT_0 as Hpi.
  pose proof (atan_bound (dy / dx)) as [Hlo Hhi].
  unfold Math_atan2.
  destruct (Rlt_dec 0 dx) as [Hpos | Hnpos].
  - destruct (quotient_sign dy dx) as (Hp & Hn & Hz); [lra|].
    repeat apply conj; try (intros; lra).
    + intros _ Hy. split; [|lra]. apply atan_nonneg.
      destruct (Req_dec_T dy 0) as [Hy0 | Hy0]; [rewrite (Hz Hy0); lra|].
      apply Rlt_le, Hp. nra.
    + intros _ Hle. apply atan_le_PI4.
      apply (Rmult_le_reg_r dx); [exact Hpos|].
      replace (dy / dx * dx) with dy by (field; lra). lra.
    + intros _ Hy. assert (atan (dy / dx) < 0) by (apply atan_neg, Hn; nra). lra.
    + intros _ Hy0. rewrite (Hz Hy0). apply atan_0.
  - destruct (Rlt_dec dx 0) as [Hneg | Hnneg].
    + destruct (quotient_sign dy dx) as (Hp & Hn & Hz); [lra|].
      destruct (Rlt_dec 0 dy) as [Hy | Hy].
      * assert (atan (dy / dx) < 0) by (apply atan_neg, Hn; nra).
        repeat apply conj; intros; lra.
      * destruct (Rlt_dec dy 0) as [Hy' | Hy'].
        -- assert (0 < atan (dy / dx)) by (apply atan_pos, Hp; nra).
           repeat apply conj; intros; lra.
        -- repeat apply conj; try (intros; lra).
           intros _ _. destruct yn; [right | left]; reflexivity.
    + destruct (Rlt_dec 0 dy) as [Hy | Hy]; [repeat apply conj; intros; lra|].
      destruct (Rlt_dec dy 0) as [Hy' | Hy']; [repeat apply conj; intros; lra|].
      repeat apply conj; try (intros; lra).
      intros _ _. destruct xn; [destruct yn|]; auto.
Qed.

Lemma radToDeg_le (t u : R) : t <= u -> radToDeg t <= radToDeg u.
Proof.
  intros H. unfold radToDeg. apply Rmult_le_compat_r; [|exact H].
  apply Rlt_le, Rdiv_lt_0_compat; [lra | apply PI_RGT_0].
Qed.

Lemma radToDeg_lt (t u : R) : t < u -> radToDeg t < radToDeg u.
Proof.
  intros H. unfold radToDeg. apply Rmult_lt_compat_r; [|exact H].
  apply Rdiv_lt_0_compat; [lra | apply PI_RGT_0].
Qed.

Lemma radToDeg_values :
  radToDeg 0 = 0 /\ radToDeg (PI / 4) = 45 /\ radToDeg (PI / 2) = 90
  /\ radToDeg PI = 180 /\ radToDeg (- (PI / 2)) = -90 /\ radToDeg (- PI) = -180.
Proof.
  pose proof PI_neq0 as Hpi. unfold radToDeg. repeat split; field; exact Hpi.
Qed.

Lemma radToDeg_bounds (t : R) :
  (0 <= t -> 0 <= radToDeg t)
  /\ (t < 0 -> radToDeg t < 0)
  /\ (t < PI / 2 -> radToDeg t < 90)
  /\ (PI / 2 <= t -> 90 <= radToDeg t)
  /\ (t <= PI / 4 -> radToDeg t <= 45)
  /\ (t < PI -> radToDeg t < 180)
  /\ (- PI < t -> -180 < radToDeg t)
  /\ (- (PI / 2) < t -> -90 < radToDeg t)
  /\ (t <= - (PI / 2) -> radToDeg t <= -90).
Proof.
  destruct radToDeg_values as (V0 & V45 & V90 & V180 & Vm90 & Vm180).
  repeat apply conj; intros H.
  - apply radToDeg_le in H. rewrite V0 in H. exact H.
  - apply radToDeg_lt in H. rewrite V0 in H. exact H.
  - apply radToDeg_lt in H. rewrite V90 in H. exact H.
  - apply radToDeg_le in H. rewrite V90 in H. exact H.
  - apply radToDeg_le in H. rewrite V45 in H. exact H.
  - apply radToDeg_lt in H. rewrite V180 in H. exact H.
  - apply radToDeg_lt in H. rewrite Vm180 in H. exact H.
  - apply radToDeg_lt in H. rewrite Vm90 in H. exact H.
  - apply radToDeg_le in H. rewrite Vm90 in H. exact H.
Qed.

Lemma atan2_degrees (yn xn : bool) (dy dx : R) :
  (0 < dx -> 0 <= dy -> 0 <= radToDeg (Math_atan2 yn xn dy dx) < 90)
  /\ (0 < dx -> dy <= dx -> radToDeg (Math_atan2 yn xn dy dx) <= 45)
  /\ (0 < dx -> dy < 0 -> -90 < radToDeg (Math_atan2 yn xn dy dx) < 0)
  /\ (dx <= 0 -> dy < 0 -> -180 < radToDeg (Math_atan2 yn xn dy dx) <= -90)
  /\ (dx <= 0 -> 0 < dy -> 90 <= radToDeg (Math_atan2 yn xn dy dx) < 180)
  /\ (dx = 0 -> 0 < dy -> radToDeg (Math_atan2 yn xn dy dx) = 90)
  /\ (dx = 0 -> dy < 0 -> radToDeg (Math_atan2 yn xn dy dx) = -90)
  /\ (0 < dx -> dy = 0 -> radToDeg (Math_atan2 yn xn dy dx) = 0)
  /\ (dx < 0 -> dy = 0 ->
        radToDeg (Math_atan2 yn xn dy dx) = 180 \/ radToDeg (Math_atan2 yn xn dy dx) = -180)
  /\ (dx = 0 -> dy = 0 ->
        radToDeg (Math_atan2 yn xn dy dx) = 0 \/ radToDeg (Math_atan2 yn xn dy dx) = 180
        \/ radToDeg (Math_atan2 yn xn dy dx) = -180).
Proof.
  destruct (Math_atan2_range yn xn dy dx)
    as (Hq1 & Hq1' & Hq4 & Hq3 & Hq2 & Hup & Hdown & Hright & Hleft & Hzero).
  destruct radToDeg_values as (V0 & V45 & V90 & V180 & Vm90 & Vm180).
  destruct (radToDeg_bounds (Math_atan2 yn xn dy dx))
    as (B0 & B0' & B90 & B90' & B45 & B180 & Bm180 & Bm90 & Bm90').
  repeat apply conj; intros Hx Hy.
  - destruct (Hq1 Hx Hy) as [Hlo Hhi]. split; [apply B0, Hlo | apply B90, Hhi].
  - apply B45, Hq1'; assumption.
  - destruct (Hq4 Hx Hy) as [Hlo Hhi]. split; [apply Bm90, Hlo | apply B0', Hhi].
  - destruct (Hq3 Hx Hy) as [Hlo Hhi]. split; [apply Bm180, Hlo | apply Bm90', Hhi].
  - destruct (Hq2 Hx Hy) as [Hlo Hhi]. split; [apply B90', Hlo | apply B180, Hhi].
  - rewrite (Hup Hx Hy). exact V90.
  - rewrite (Hdown Hx Hy). exact Vm90.
  - rewrite (Hright Hx Hy). exact V0.
  - destruct (Hleft Hx Hy) as [-> | ->]; [left; exact V180 | right; exact Vm180].
  - destruct (Hzero Hx Hy) as [-> | [-> | ->]];
      [left; exact V0 | right; left; exact V180 | right; right; exact Vm180].
Qed.

Lemma getLineAngle_by_quadrant (yn xn : bool) (a b : Vector3) :
  (Vector3.x a < Vector3.x b -> Vector3.y a <= Vector3.y b ->
     0 <= getLineAngle yn xn a b < 90)
  /\ (Vector3.x a < Vector3.x b -> Vector3.y b - Vector3.y a <= Vector3.x b - Vector3.x a ->
        getLineAngle yn xn a b <= 45)
  /\ (Vector3.x a < Vector3.x b -> Vector3.y b < Vector3.y a ->
        -90 < getLineAngle yn xn a b < 0)
  /\ (Vector3.x b <= Vector3.x a -> Vector3.y b < Vector3.y a ->
        -180 < getLineAngle yn xn a b <= -90)
  /\ (Vector3.x b <= Vector3.x a -> Vector3.y a < Vector3.y b ->
        90 <= getLineAngle yn xn a b < 180)
  /\ (Vector3.x a = Vector3.x b -> Vector3.y a < Vector3.y b -> getLineAngle yn xn a b = 90)
  /\ (Vector3.x a = Vector3.x b -> Vector3.y b < Vector3.y a -> getLineAngle yn xn a b = -90)
  /\ (Vector3.x a < Vector3.x b -> Vector3.y a = Vector3.y b -> getLineAngle yn xn a b = 0)
  /\ (Vector3.x b < Vector3.x a -> Vector3.y a = Vector3.y b ->
        getLineAngle yn xn a b = 180 \/ getLineAngle yn xn a b = -180)
  /\ (Vector3.x a = Vector3.x b -> Vector3.y a = Vector3.y b ->
        getLineAngle yn xn a b = 0 \/ getLineAngle yn xn a b = 180
        \/ getLineAngle yn xn a b = -180).
Proof.
  unfold getLineAngle; cbv zeta.
  destruct (atan2_degrees yn xn (Vector3.y b - Vector3.y a) (Vector3.x b - Vector3.x a))
    as (Hq1 & Hq1' & Hq4 & Hq3 & Hq2 & Hup & Hdown & Hright & Hleft & Hzero).
  repeat apply conj; intros Hx Hy.
  - apply Hq1; clear - Hx Hy; lra.
  - apply Hq1'; clear - Hx Hy; lra.
  - apply Hq4; clear - Hx Hy; lra.
  - apply Hq3; clear - Hx Hy; lra.
  - apply Hq2; clear - Hx Hy; lra.
  - apply Hup; clear - Hx Hy; lra.
  - apply Hdown; clear - Hx Hy; lra.
  - apply Hright; clear - Hx Hy; lra.
  - apply Hleft; clear - Hx Hy; lra.
  - apply Hzero; clear - Hx Hy; lra.
Qed.



Lemma Math_trunc_small (r : R) : -1 < r < 1 -> Math_trunc r = 0.
Proof.
  intros [Hlo Hhi]. unfold Math_trunc. destruct (Rle_dec 0 r) as [Hr | Hr].
  - rewrite <- (Int_part_spec r 0); [reflexivity | lra].
  - rewrite <- (Int_part_spec (- r) 0); [lra | lra].
Qed.

Lemma js_rem_small (a : R) : -360 < a < 360 -> js_rem a 360 = a.
Proof.
  intros Ha. unfold js_rem. rewrite Math_trunc_small; [ring|]. lra.
Qed.

Lemma Rleb_true (a b : R) : Rleb a b = true <-> a <= b.
Proof. unfold Rleb. destruct (Rle_dec a b); split; (discriminate || lra || reflexivity). Qed.

Lemma Rltb_true (a b : R) : Rltb a b = true <-> a < b.
Proof. unfold Rltb. destruct (Rlt_dec a b); split; (discriminate || lra || reflexivity). Qed.

Lemma in_bucket (lo hi angle : R) :
  (Rleb lo angle && Rltb angle hi)%bool = true <-> lo <= angle < hi.
Proof. rewrite andb_true_iff, Rleb_true, Rltb_true. reflexivity. Qed.

Lemma not_in_bucket (lo hi angle : R) :
  angle < lo \/ hi <= angle -> (Rleb lo angle && Rltb angle hi)%bool = false.
Proof.
  intros H. destruct (Rleb lo angle && Rltb angle hi)%bool eqn:Hb; [|reflexivity].
  apply in_bucket in Hb. lra.
Qed.

Lemma createTextSprite_by_angle (text : string) (pos : Vector3) (lineAngle : R) :
  -360 < lineAngle < 360 ->
  (0 <= lineAngle < 30 ->
     createTextSprite text pos lineAngle =
     mkSprite (Vector3.mk (Vector3.x pos) (Vector3.y pos + 0.15) (Vector3.z pos)) 0
       (Vector3.mk 2 0.5 1))
  /\ (30 <= lineAngle < 60 ->
        createTextSprite text pos lineAngle =
        mkSprite (Vector3.mk (Vector3.x pos) (Vector3.y pos + 0.15) (Vector3.z pos))
          (degToRad lineAngle) (Vector3.mk 2 0.5 1))
  /\ (60 <= lineAngle < 90 ->
        createTextSprite text pos lineAngle =
        mkSprite (Vector3.mk (Vector3.x pos + 0.15) (Vector3.y pos) (Vector3.z pos)) 0
          (Vector3.mk 2 0.5 1))
  /\ (lineAngle < 0 \/ 90 <= lineAngle ->
        createTextSprite text pos lineAngle = mkSprite pos 0 (Vector3.mk 2 0.5 1)).
Proof.
  intros Hr. unfold createTextSprite; cbv zeta. rewrite (js_rem_small _ Hr), copy_eq.
  split; [|split; [|split]]; intros H.
  - rewrite (proj2 (in_bucket 0 30 lineAngle) H). reflexivity.
  - rewrite (not_in_bucket 0 30) by lra.
    rewrite (proj2 (in_bucket 30 60 lineAngle) H). reflexivity.
  - rewrite (not_in_bucket 0 30), (not_in_bucket 30 60) by lra.
    rewrite (proj2 (in_bucket 60 90 lineAngle) H). reflexivity.
  - rewrite (not_in_bucket 0 30), (not_in_bucket 30 60), (not_in_bucket 60 90) by lra.
    reflexivity.
Qed.

(** X18.  Where the label of a measurement goes, whatever the signs
    of zero differences.  It sits 0.15 above the midpoint when [b]
    lies to the right of [a], not lower, and not steeper than 45
    degrees above it; it sits on the midpoint, unturned, when [b] lies
    lower than [a], or to the left of it, or straight above it.  It is
    never more than 0.15 away from the midpoint. *)
Theorem label_placement (dyNegZero dxNegZero : bool) (text : string) (a b : Vector3) :
  (Vector3.x a < Vector3.x b -> Vector3.y a <= Vector3.y b ->
   Vector3.y b - Vector3.y a <= Vector3.x b - Vector3.x a ->
     sprite_position (labelOf dyNegZero dxNegZero text a b) =
       Vector3.add (midOf a b) (Vector3.mk 0 0.15 0))
  /\ (Vector3.y b < Vector3.y a \/ Vector3.x b < Vector3.x a
      \/ (Vector3.x b = Vector3.x a /\ Vector3.y a < Vector3.y b) ->
        labelOf dyNegZero dxNegZero text a b = mkSprite (midOf a b) 0 (Vector3.mk 2 0.5 1))
  /\ Vector3.distanceTo (midOf a b) (sprite_position (labelOf dyNegZero dxNegZero text a b))
     <= 0.15.
Proof.
  destruct (getLineAngle_by_quadrant dyNegZero dxNegZero a b)
    as (Hq1 & Hq1' & Hq4 & Hq3 & Hq2 & Hup & Hdown & Hright & Hleft & Hzero).
  unfold labelOf. set (m := midOf a b).
  set (t := getLineAngle dyNegZero dxNegZero a b) in *. clearbody m t.
  split; [|split].
  - intros Hx Hy Hslope.
    assert (Ht : 0 <= t <= 45).
    { assert (0 <= t < 90) by (apply Hq1; lra).
      assert (t <= 45) by (apply Hq1'; lra). lra. }
    destruct (createTextSprite_by_angle text m t) as (H1 & H2 & _); [lra|].
    destruct (Rlt_dec t 30) as [H30 | H30].
    + rewrite H1 by lra. apply vector_ext; simpl; ring.
    + rewrite H2 by lra. apply vector_ext; simpl; ring.
  - intros Hcase.
    assert (Ht : -360 < t < 360 /\ (t < 0 \/ 90 <= t)).
    { destruct (Rlt_dec (Vector3.y b) (Vector3.y a)) as [Hy | Hy].
      - destruct (Rlt_dec (Vector3.x a) (Vector3.x b)) as [Hx | Hx].
        + assert (-90 < t < 0) by (apply Hq4; lra). lra.
        + assert (-180 < t <= -90) by (apply Hq3; lra). lra.
      - destruct (Req_dec_T (Vector3.y a) (Vector3.y b)) as [Hy0 | Hy0].
        + assert (Hx : Vector3.x b < Vector3.x a) by lra.
          destruct (Hleft Hx Hy0) as [-> | ->]; lra.
        + assert (90 <= t < 180) by (apply Hq2; lra). lra. }
    destruct Ht as [Hr Ht].
    destruct (createTextSprite_by_angle text m t Hr) as (_ & _ & _ & H4).
    apply H4, Ht.
  - unfold createTextSprite; cbv zeta. rewrite copy_eq.
    assert (Hy : Vector3.distanceTo m
                   (Vector3.mk (Vector3.x m) (Vector3.y m + 0.15) (Vector3.z m)) = 0.15).
    { unfold Vector3.distanceTo, Vector3.distanceToSquared; simpl.
      apply sqrt_lem_1; [nra | lra | ring]. }
    assert (Hx : Vector3.distanceTo m
                   (Vector3.mk (Vector3.x m + 0.15) (Vector3.y m) (Vector3.z m)) = 0.15).
    { unfold Vector3.distanceTo, Vector3.distanceToSquared; simpl.
      apply sqrt_lem_1; [nra | lra | ring]. }
    destruct (Rleb 0 _ && Rltb _ 30)%bool; [cbn [sprite_position]; lra|].
    destruct (Rleb 30 _ && Rltb _ 60)%bool; [cbn [sprite_position]; lra|].
    destruct (Rleb 60 _ && Rltb _ 90)%bool; [cbn [sprite_position]; lra|].
    cbn [sprite_position]. rewrite distanceTo_self. lra.
Qed.

Lemma label_placement_witness :
  labelOf false false "5.00 m" (Vector3.mk 0 0 0) (Vector3.mk 3 (-4) 0) =
    mkSprite (midOf (Vector3.mk 0 0 0) (Vector3.mk 3 (-4) 0)) 0 (Vector3.mk 2 0.5 1)
  /\ sprite_position (labelOf false false "5.00 m" (Vector3.mk 0 0 0) (Vector3.mk 4 3 0)) =
       Vector3.add (midOf (Vector3.mk 0 0 0) (Vector3.mk 4 3 0)) (Vector3.mk 0 0.15 0).
Proof.
  destruct (label_placement false false "5.00 m" (Vector3.mk 0 0 0) (Vector3.mk 3 (-4) 0))
    as (_ & Hdown & _).
  destruct (label_placement false false "5.00 m" (Vector3.mk 0 0 0) (Vector3.mk 4 3 0))
    as (Hup & _).
  split; [apply Hdown; left; simpl; lra | apply Hup; simpl; lra].
Defined.

(** X19.  The background box behind the label text is centred on the
    canvas, where the text is drawn, whatever the width of the text; it
    is 20 pixels high and 8 pixels wider than the text, and it lies
    within the canvas as long as the text is at most 248 pixels wide. *)
Theorem textBackground_centred (textWidth : R) :
  bgX (textBackground textWidth) + bgWidth (textBackground textWidth) / 2 = CANVAS_WIDTH / 2
  /\ bgY (textBackground textWidth) + bgHeight (textBackground textWidth) / 2
     = CANVAS_HEIGHT / 2
  /\ bgHeight (textBackground textWidth) = 20
  /\ bgWidth (textBackground textWidth) = textWidth + 8
  /\ (0 <= textWidth <= 248 ->
        0 <= bgX (textBackground textWidth)
        /\ bgX (textBackground textWidth) + bgWidth (textBackground textWidth)
           <= CANVAS_WIDTH
        /\ 0 <= bgY (textBackground textWidth)
        /\ bgY (textBackground textWidth) + bgHeight (textBackground textWidth)
           <= CANVAS_HEIGHT).
Proof.
  unfold textBackground, TEXT_SIZE, TEXT_PADDING, CANVAS_WIDTH, CANVAS_HEIGHT; simpl.
  repeat split; lra.
Qed.

Lemma textBackground_centred_witness :
  0 <= bgX (textBackground 77) /\ bgX (textBackground 77) + bgWidth (textBackground 77) <= 256.
Proof.
  destruct (textBackground_centred 77) as (_ & _ & _ & _ & Hfit).
  destruct Hfit as (H1 & H2 & _); [lra|].
  split; [exact H1 | exact H2].
Defined.

(** ** The host page *)

(** X20.  The pointer position the page hands to the raycaster:
    within a window of positive size, a pointer inside the window is
    mapped into the square from -1 to 1 in both coordinates, the top
    left corner of the window to (-1, 1), the bottom right corner to
    (1, -1) and the centre to (0, 0). *)
Theorem setMouse_range (innerWidth innerHeight : R) (e : DomMouseEvent) (shift ctrl : bool) :
  0 < innerWidth -> 0 < innerHeight ->
  (0 <= clientX e <= innerWidth ->
     -1 <= Vector2.x (setMouse innerWidth innerHeight e) <= 1)
  /\ (0 <= clientY e <= innerHeight ->
        -1 <= Vector2.y (setMouse innerWidth innerHeight e) <= 1)
  /\ setMouse innerWidth innerHeight (mkMouseEvent 0 0 shift ctrl) = Vector2.mk (-1) 1
  /\ setMouse innerWidth innerHeight (mkMouseEvent innerWidth innerHeight shift ctrl)
     = Vector2.mk 1 (-1)
  /\ setMouse innerWidth innerHeight
       (mkMouseEvent (innerWidth / 2) (innerHeight / 2) shift ctrl) = Vector2.mk 0 0.
Proof.
  intros Hw Hh. unfold setMouse; simpl.
  assert (Hx : clientX e / innerWidth * innerWidth = clientX e) by (field; lra).
  assert (Hy : clientY e / innerHeight * innerHeight = clientY e) by (field; lra).
  split; [|split; [|split; [|split]]].
  - intros [H0 H1]. split; nra.
  - intros [H0 H1]. split; nra.
  - f_equal; field; lra.
  - f_equal; field; lra.
  - f_equal; field; lra.
Qed.

Lemma setMouse_range_witness :
  -1 <= Vector2.x (setMouse 800 600 (mkMouseEvent 200 150 false false)) <= 1.
Proof.
  destruct (setMouse_range 800 600 (mkMouseEvent 200 150 false false) false false)
    as (Hx & _); [lra | lra |].
  apply Hx. simpl. lra.
Defined.

Section HostFacts.

Variable pick : Vector2.t -> Vector3.

(** X21.  A click is taken where the pointer last moved, not where the
    click event says it happened: the click handler reads only the
    modifier keys of its event.  So the start point a first click
    captures is the point picked for the last move, which is the
    recorded pointer position, and on a page where the pointer has not
    moved yet it is the point picked for the centre of the window. *)
Theorem click_taken_at_last_move
    (innerWidth innerHeight : R) (pg : Page) (move click click' : DomMouseEvent)
    (sc : Scene) :
  (shiftKey click = shiftKey click' -> ctrlKey click = ctrlKey click' ->
     onClick pick pg click = onClick pick pg click')
  /\ (isActive (system pg) = true -> startPoint (system pg) = None ->
        startPoint (system (onClick pick (onMouseMove pick innerWidth innerHeight pg move) click))
          = Some (pick (setMouse innerWidth innerHeight move))
        /\ currentMousePos
             (system (onClick pick (onMouseMove pick innerWidth innerHeight pg move) click))
           = pick (setMouse innerWidth innerHeight move))
  /\ startPoint (system (onClick pick (page_start sc) click)) = Some (pick (Vector2.mk 0 0)).
Proof.
  split; [|split].
  - intros Hs Hc. unfold onClick. rewrite Hs, Hc. reflexivity.
  - intros Ha Hs. unfold onClick, onMouseMove; cbn [system mouse].
    set (q := pick (setMouse innerWidth innerHeight move)).
    assert (Hm : isActive (handleMouseMove (system pg) q) = true
                 /\ startPoint (handleMouseMove (system pg) q) = None
                 /\ currentMousePos (handleMouseMove (system pg) q) = q).
    { unfold handleMouseMove. rewrite Ha, Hs; simpl.
      destruct (previewLine (system pg)); simpl; rewrite copy_eq; repeat split; assumption. }
    destruct Hm as (Ha' & Hs' & Hq).
    rewrite (handleClick_idle _ _ _ _ Ha' Hs'); simpl. split; [reflexivity | exact Hq].
  - unfold onClick, page_start; simpl. unfold handleClick; simpl.
    rewrite clone_eq. reflexivity.
Qed.

(** X22.  Measuring through the page: on a freshly set-up page, a
    move and a click followed by another move and a click without
    modifier keys register one measurement, from the point picked for
    the first move to the point picked for the second, with their
    distance cached.  With Escape pressed in between, nothing is
    registered and the second click starts a new measurement. *)
Theorem page_measures_between_moves
    (innerWidth innerHeight : R) (sc : Scene) (move1 click1 move2 click2 : DomMouseEvent) :
  shiftKey click2 = false -> ctrlKey click2 = false ->
  (exists g,
     measurements
       (system
          (onClick pick
             (onMouseMove pick innerWidth innerHeight
                (onClick pick (onMouseMove pick innerWidth innerHeight (page_start sc) move1)
                   click1)
                move2)
             click2)) = [g]
     /\ ud_startPoint (userData g) = pick (setMouse innerWidth innerHeight move1)
     /\ ud_endPoint (userData g) = pick (setMouse innerWidth innerHeight move2)
     /\ ud_distance (userData g) =
          Vector3.distanceTo (pick (setMouse innerWidth innerHeight move1))
            (pick (setMouse innerWidth innerHeight move2)))
  /\ measurements
       (system
          (onClick pick
             (onMouseMove pick innerWidth innerHeight
                (onKeyDown
                   (onClick pick
                      (onMouseMove pick innerWidth innerHeight (page_start sc) move1) click1)
                   "Escape")
                move2)
             click2)) = []
  /\ startPoint
       (system
          (onClick pick
             (onMouseMove pick innerWidth innerHeight
                (onKeyDown
                   (onClick pick
                      (onMouseMove pick innerWidth innerHeight (page_start sc) move1) click1)
                   "Escape")
                move2)
             click2)) = Some (pick (setMouse innerWidth innerHeight move2)).
Proof.
  intros Hshift Hctrl.
  unfold onClick, onMouseMove, onKeyDown, page_start; simpl.
  rewrite Hshift, Hctrl.
  unfold handleClick, handleMouseMove; simpl.
  split; [|split].
  - eexists. split; [reflexivity|]. simpl. rewrite !clone_eq. repeat split.
  - reflexivity.
  - rewrite clone_eq. reflexivity.
Qed.

End HostFacts.

Lemma click_taken_at_last_move_witness :
  startPoint
    (system
       (onClick (fun m => Vector3.mk (Vector2.x m) (Vector2.y m) 0)
          (onMouseMove (fun m => Vector3.mk (Vector2.x m) (Vector2.y m) 0) 800 600
             (page_start [])
             (mkMouseEvent 200 150 false false))
          (mkMouseEvent 0 0 false false))) =
  Some ((fun m => Vector3.mk (Vector2.x m) (Vector2.y m) 0)
          (setMouse 800 600 (mkMouseEvent 200 150 false false))).
Proof.
  destruct (click_taken_at_last_move (fun m => Vector3.mk (Vector2.x m) (Vector2.y m) 0)
              800 600
              (page_start [])
              (mkMouseEvent 200 150 false false) (mkMouseEvent 0 0 false false)
              (mkMouseEvent 0 0 false false) []) as (_ & Hmove & _).
  destruct (Hmove eq_refl eq_refl) as [Hstart _]. exact Hstart.
Defined.

Lemma page_measures_between_moves_witness :
  exists g,
    measurements
      (system
         (onClick (fun m => Vector3.mk (Vector2.x m) (Vector2.y m) 0)
            (onMouseMove (fun m => Vector3.mk (Vector2.x m) (Vector2.y m) 0) 800 600
               (onClick (fun m => Vector3.mk (Vector2.x m) (Vector2.y m) 0)
                  (onMouseMove (fun m => Vector3.mk (Vector2.x m) (Vector2.y m) 0) 800 600
                     (page_start [])
                     (mkMouseEvent 200 150 false false))
                  (mkMouseEvent 200 150 false false))
               (mkMouseEvent 600 450 false false))
            (mkMouseEvent 600 450 false false))) = [g].
Proof.
  destruct (page_measures_between_moves
              (fun m => Vector3.mk (Vector2.x m) (Vector2.y m) 0) 800 600 []
              (mkMouseEvent 200 150 false false) (mkMouseEvent 200 150 false false)
              (mkMouseEvent 600 450 false false) (mkMouseEvent 600 450 false false)
              eq_refl eq_refl) as [(g & Hm & _) _].
  exists g. exact Hm.
Defined.
